(** * VideoCompressor: a shallow embedding of the browser video-compression wrapper

    The wrapper ([VideoCompressor] with its methods [init], [compress],
    [#cleanupFiles], [#guessExtension], [#buildArgs], [#applyVideoOptions]
    and [#applyAudioOptions]) is embedded as follows.

    - The argument-building methods are pure functions on [list string];
      a JavaScript [throw] is the [Throw] constructor of [Res].
    - The stateful methods run in a small state-and-exception monad [M]
      over a [World]: the instance's fields, a ghost trace of the calls made
      to the injected collaborators, and the number of clock readings taken.
    - The transcoding engine is external.  It is an abstract state type [E]
      with the operations of the class [EngineOps]; the theorems hold for
      every engine, and a small in-memory engine serves for closed examples.
    - An [async] method is cut at its [await]s.  A call runs synchronously
      to its first [await] and leaves a suspended task (a program counter
      with the captured locals and the awaited promise); resuming the task
      runs it to the next [await] or to settlement.  A [System] interleaves
      the tasks of one instance under an explicit schedule of events.

    Modelling choices.  A promise carries the outcome it settles to from
    the moment it is created; the outcome is delivered when the awaiting
    task is resumed, so "pending" is "not yet resumed".  An engine method
    changes the engine when it is called.  The factory and [on] do not
    throw.  A number option ([crf], [scale.width], [scale.height]) is
    represented by what the wrapper observes of it: its truthiness and the
    text [String] gives for it.  [Date.now()] is an integer, printed in
    decimal.  Option properties are [option]s, [None] for a property that
    is absent or [undefined]; the two properties of [output] that the
    spread of line 134 merges with defaults distinguish the two.  Callbacks
    are identities. *)

From Stdlib Require Import ZArith String Ascii List DecimalString Lia.
From stdpp Require Import base list strings.
Import ListNotations.
Open Scope string_scope.
Open Scope list_scope.

(** ** JavaScript values used by the wrapper *)

(** [new Error(message)]: the wrapper and its collaborators throw these. *)
Inductive JsError := Error (message : string).

(** Outcome of an evaluation that may throw, and of a settled promise. *)
Inductive Res (A : Type) := Ok (a : A) | Throw (e : JsError).
Arguments Ok {A} a.
Arguments Throw {A} e.

(** A promise is identified with the outcome it settles to; the moment of
    delivery is the moment the awaiting task is resumed. *)
Definition Promise (A : Type) := Res A.

Definition bytes := list Byte.byte.

(** A browser [File]: only [name] and [type] are read by the wrapper. *)
Record File := { file_name : string; file_type : string; file_data : bytes }.

(** First argument of [compress]: a [File], or a value for which
    [file instanceof File] is false. *)
Inductive FileArg := AFile (f : File) | ANotAFile.

Record Blob := { blob_data : bytes; blob_type : string }.

(** Callbacks are compared by identity only. *)
Inductive Handler := HandlerId (n : nat).

(** [String(n)] and template interpolation of an integer below [10^21] in
    magnitude: its decimal digits.  The readings of [Date.now()] are such
    integers. *)
Definition String_of_number (z : Z) : string :=
  NilZero.string_of_int (Z.to_int z).

(** A number passed as an option, as the wrapper observes it: whether it
    is truthy (every number but [0] and [NaN] is), and the text that
    [String(n)] and template interpolation give for it (["1280"],
    ["1280.5"], ["NaN"], ["1e+21"]). *)
Record JsNumber := { number_truthy : bool; number_text : string }.

(** The number of an integer literal. *)
Definition Number_of (z : Z) : JsNumber :=
  {| number_truthy := negb (z =? 0)%Z; number_text := String_of_number z |}.

(** A property of an object that is spread over defaults: absent (the
    default stays), present with the value [undefined] (which replaces the
    default), or present with a string. *)
Inductive Property (A : Type) := Absent | Undefined | Value (a : A).
Arguments Absent {A}.
Arguments Undefined {A}.
Arguments Value {A} a.

(** Truthiness of an optional string property: [undefined] and the empty
    string are falsy. *)
Definition truthy_string (o : option string) : bool :=
  match o with
  | Some s => negb (s =? EmptyString)
  | None => false
  end.

(** Truthiness of an optional number property: [undefined], [0] and
    [NaN] are falsy. *)
Definition truthy_number (o : option JsNumber) : bool :=
  match o with
  | Some n => number_truthy n
  | None => false
  end.

Definition truthy_bool (o : option bool) : bool :=
  match o with
  | Some b => b
  | None => false
  end.

(** ** Options (the typedefs of the source) *)

Module CompressionMode.
Definition COPY : string := "copy".
Definition COPY_MUTE : string := "copy-mute".
Definition REENCODE : string := "reencode".
End CompressionMode.

Record ScaleOptions := { width : option JsNumber; height : option JsNumber }.

Record VideoOptions := {
  video_codec : option string;
  crf : option JsNumber;
  video_bitrate : option string;
  preset : option string;
  scale : option ScaleOptions
}.

Record AudioOptions := {
  mute : option bool;
  audio_codec : option string;
  audio_bitrate : option string
}.

Record OutputOptions := {
  container : Property string;
  fileName : option string;
  mimeType : Property string
}.

Record CompressionOptions := {
  mode : option string;
  video : option VideoOptions;
  audio : option AudioOptions;
  output : option OutputOptions;
  onProgress : option Handler;
  onLog : option Handler
}.

(** The parameter default [videoOptions = {}]. *)
Definition no_video : VideoOptions :=
  {| video_codec := None; crf := None; video_bitrate := None;
     preset := None; scale := None |}.

(** The parameter default [audioOptions = {}]. *)
Definition no_audio : AudioOptions :=
  {| mute := None; audio_codec := None; audio_bitrate := None |}.

(** [options.output] when it is not given: the spread copies nothing. *)
Definition no_output : OutputOptions :=
  {| container := Absent; fileName := None; mimeType := Absent |}.

(** A property of [{ key: d, ...output }]: [None] is [undefined]. *)
Definition spread_over (d : string) (p : Property string) : option string :=
  match p with
  | Absent => Some d
  | Undefined => None
  | Value s => Some s
  end.

(** Template interpolation [`${v}`] of a string or [undefined]. *)
Definition interpolate (v : option string) : string :=
  match v with
  | Some s => s
  | None => "undefined"
  end.

(** [s.every(p)] and [s.map(f)] on the characters of a string. *)
Fixpoint every (p : ascii -> bool) (s : string) : bool :=
  match s with
  | EmptyString => true
  | String a s' => p a && every p s'
  end.

Fixpoint map_chars (f : ascii -> ascii) (s : string) : string :=
  match s with
  | EmptyString => EmptyString
  | String a s' => String (f a) (map_chars f s')
  end.

(** The characters U+0020 to U+007E. *)
Definition in_type_range (a : ascii) : bool :=
  Nat.leb 32 (nat_of_ascii a) && Nat.leb (nat_of_ascii a) 126.

Definition ascii_lowercase (a : ascii) : ascii :=
  if Nat.leb 65 (nat_of_ascii a) && Nat.leb (nat_of_ascii a) 90
  then ascii_of_nat (nat_of_ascii a + 32)
  else a.

(** The [type] of the blob made by [new Blob(parts, { type: v })]: empty
    for an [undefined] member and for a string with a character outside
    U+0020 to U+007E, and otherwise the string in ASCII lower case. *)
Definition Blob_type (v : option string) : string :=
  match v with
  | Some s => if every in_type_range s then map_chars ascii_lowercase s else EmptyString
  | None => EmptyString
  end.

(** ** String helpers of [#guessExtension] *)

(** [s.includes(c)] for a one-character needle. *)
Fixpoint includes (c : ascii) (s : string) : bool :=
  match s with
  | EmptyString => false
  | String a s' => if Ascii.eqb a c then true else includes c s'
  end.

(** [s.split(c)] for a one-character separator. *)
Fixpoint split (c : ascii) (s : string) : list string :=
  match s with
  | EmptyString => [EmptyString]
  | String a s' =>
      if Ascii.eqb a c then EmptyString :: split c s'
      else match split c s' with
           | [] => [String a EmptyString]
           | h :: t => String a h :: t
           end
  end.

(** [#guessExtension(name, mime)] *)
Definition guessExtension (name mime : string) : string :=
  if includes "." name then List.last (split "." name) EmptyString
  else
    let mimeParts := if negb (mime =? EmptyString) then split "/" mime else [] in
    match nth_error mimeParts 1 with
    | Some part => if negb (part =? EmptyString) then part else "mp4"
    | None => "mp4"
    end.

(** ** Argument building *)

(** [#applyVideoOptions(args, videoOptions = {})].  The array [args] is
    local to [#buildArgs]; when the method throws, the array is dropped. *)
Definition applyVideoOptions (args : list string) (videoOptions : option VideoOptions)
  : Res (list string) :=
  let v := match videoOptions with Some v => v | None => no_video end in
  let codec := match video_codec v with Some c => c | None => "libx264" end in
  let args := args ++ ["-c:v"; codec] in
  match crf v, video_bitrate v with
  | Some _, Some _ =>
      Throw (Error "Provide either crf or bitrate for video, not both.")
  | _, _ =>
      let args :=
        match crf v with
        | Some q => args ++ ["-crf"; number_text q]
        | None => args
        end in
      let args :=
        match video_bitrate v with
        | Some b => args ++ ["-b:v"; b]
        | None => args
        end in
      let args :=
        if truthy_string (preset v) then args ++ ["-preset"; default EmptyString (preset v)]
        else args in
      let args :=
        match scale v with
        | Some sc =>
            if truthy_number (width sc) || truthy_number (height sc) then
              let w := match width sc with Some w => number_text w | None => "-2" end in
              let h := match height sc with Some h => number_text h | None => "-2" end in
              args ++ ["-vf"; "scale=" +:+ w +:+ ":" +:+ h]
            else args
        | None => args
        end in
      Ok args
  end.

(** [#applyAudioOptions(args, audioOptions = {})] *)
Definition applyAudioOptions (args : list string) (audioOptions : option AudioOptions)
  : list string :=
  let a := match audioOptions with Some a => a | None => no_audio end in
  if truthy_bool (mute a) then args ++ ["-an"]
  else
    let codec := audio_codec a in
    let bitrate := audio_bitrate a in
    let args :=
      if truthy_string codec then args ++ ["-c:a"; default EmptyString codec]
      else if truthy_string bitrate then args ++ ["-c:a"; "aac"]
      else args ++ ["-c:a"; "copy"] in
    if truthy_string bitrate then args ++ ["-b:a"; default EmptyString bitrate]
    else args.

(** [#buildArgs(inputName, outputName, options, output)]; the parameter
    [output] is not read by the method. *)
Definition buildArgs (inputName outputName : string) (options : CompressionOptions)
  : Res (list string) :=
  let args := ["-i"; inputName] in
  let finish (args : list string) := Ok (args ++ ["-y"; outputName]) in
  match mode options with
  | Some m =>
      if m =? CompressionMode.COPY then
        finish (args ++ ["-c:v"; "copy"; "-c:a"; "copy"; "-movflags"; "+faststart"])
      else if m =? CompressionMode.COPY_MUTE then
        finish (args ++ ["-c:v"; "copy"; "-an"; "-movflags"; "+faststart"])
      else if m =? CompressionMode.REENCODE then
        match applyVideoOptions args (video options) with
        | Throw e => Throw e
        | Ok args =>
            let args := applyAudioOptions args (audio options) in
            finish (args ++ ["-movflags"; "+faststart"])
        end
      else Throw (Error ("Unsupported compression mode: " +:+ m))
  | None => Throw (Error "Unsupported compression mode: undefined")
  end.

(** ** The injected collaborators *)

(** The object passed to the engine factory. *)
Record FFmpegOptions := { opt_log : bool; opt_corePath : option string }.

(** The engine as the wrapper uses it: [on], [load], [writeFile], [exec],
    [readFile] and [FS].  The asynchronous methods return the engine after
    the call together with the promise they hand back; [FS] is synchronous,
    returns the truthiness of its result, and may throw. *)
Class EngineOps (E : Type) := {
  engine_on : string -> E -> E;
  engine_load : E -> E * Promise unit;
  engine_writeFile : string -> bytes -> E -> E * Promise unit;
  engine_exec : list string -> E -> E * Promise unit;
  engine_readFile : string -> E -> E * Promise bytes;
  engine_FS : string -> string -> E -> E * Res bool
}.

(** [this.config] after the constructor's defaults were merged. *)
Record VideoCompressorConfig (E : Type) := {
  corePath : option string;
  log : bool;
  ffmpegFactory : FFmpegOptions -> E;
  fileFetcher : File -> Promise bytes;
  config_onLog : option Handler;
  config_onProgress : option Handler
}.
Arguments corePath {E} _.
Arguments log {E} _.
Arguments ffmpegFactory {E} _ _.
Arguments fileFetcher {E} _ _.
Arguments config_onLog {E} _.
Arguments config_onProgress {E} _.

Record Hooks := { hook_onLog : option Handler; hook_onProgress : option Handler }.

Definition no_hooks : Hooks := {| hook_onLog := None; hook_onProgress := None |}.

(** The fields of a [VideoCompressor] instance. *)
Record VideoCompressor (E : Type) := {
  config : VideoCompressorConfig E;
  ffmpeg : option E;
  loadingPromise : option (Promise unit);
  activeJobHooks : Hooks;
  isRunningJob : bool
}.
Arguments config {E} _.
Arguments ffmpeg {E} _.
Arguments loadingPromise {E} _.
Arguments activeJobHooks {E} _.
Arguments isRunningJob {E} _.

(** [new VideoCompressor(config)] *)
Definition new_VideoCompressor {E} (cfg : VideoCompressorConfig E) : VideoCompressor E :=
  {| config := cfg; ffmpeg := None; loadingPromise := None;
     activeJobHooks := no_hooks; isRunningJob := false |}.

(** Ghost trace: every call the wrapper makes to a collaborator. *)
Inductive Call :=
| CFactory (o : FFmpegOptions)
| COn (event : string)
| CLoad
| CFetch (f : File)
| CWriteFile (name : string) (data : bytes)
| CExec (args : list string)
| CReadFile (name : string)
| CFS (op path : string).

Record World (E : Type) := {
  self : VideoCompressor E;
  trace : list Call;
  clock_reads : nat
}.
Arguments self {E} _.
Arguments trace {E} _.
Arguments clock_reads {E} _.

Definition new_World {E} (cfg : VideoCompressorConfig E) : World E :=
  {| self := new_VideoCompressor cfg; trace := []; clock_reads := 0 |}.

(** A call of an [async] method: settled, or suspended at an [await]. *)
Inductive Task (A Pc : Type) := Settled (r : Res A) | Suspended (pc : Pc).
Arguments Settled {A Pc} r.
Arguments Suspended {A Pc} pc.

(** The locals of [compress] that live across its [await]s; of [output],
    the type the blob will get from [output.mimeType]. *)
Record Job := {
  inputName : string;
  outputName : string;
  args : list string;
  job_mimeType : string
}.

(** Suspension point of [init]: [await this.loadingPromise]. *)
Inductive InitPc := AwaitLoad (p : Promise unit).

(** Suspension points of [compress], in source order. *)
Inductive CompressPc :=
| AwaitInit (file : File) (options : CompressionOptions) (p : Promise unit)
| AwaitFetch (job : Job) (p : Promise bytes)
| AwaitWriteFile (job : Job) (p : Promise unit)
| AwaitExec (job : Job) (p : Promise unit)
| AwaitReadFile (job : Job) (p : Promise bytes).

Inductive Event :=
| CallInit
| CallCompress (file : FileArg) (options : option CompressionOptions)
| ResumeInit (i : nat)
| ResumeCompress (i : nat).

Section Wrapper.
Context {E : Type} {ops : EngineOps E}.

(** The readings of [Date.now()], in the order they are taken. *)
Variable clock : nat -> Z.

(** *** State and exceptions *)

Definition M (A : Type) : Type := World E -> Res A * World E.

Definition ret {A} (a : A) : M A := fun w => (Ok a, w).

Definition bind {A B} (m : M A) (k : A -> M B) : M B :=
  fun w =>
    match m w with
    | (Ok a, w') => k a w'
    | (Throw e, w') => (Throw e, w')
    end.

Definition throw {A} (e : JsError) : M A := fun w => (Throw e, w).

Notation "x <- c1 ;; c2" := (bind c1 (fun x => c2))
  (at level 100, c1 at next level, c2 at level 200, right associativity).
Notation "c1 ;; c2" := (bind c1 (fun _ => c2))
  (at level 100, c2 at level 200, right associativity).

(** [try { body } catch (_) { handler }] *)
Definition try_catch {A} (body : M A) (handler : JsError -> M A) : M A :=
  fun w =>
    match body w with
    | (Ok a, w') => (Ok a, w')
    | (Throw e, w') => handler e w'
    end.

(** [try { body } finally { fin }]: an exception of [fin] replaces the
    outcome of [body]. *)
Definition try_finally {A} (body : M A) (fin : M unit) : M A :=
  fun w =>
    match body w with
    | (r, w') =>
        match fin w' with
        | (Ok _, w'') => (r, w'')
        | (Throw e, w'') => (Throw e, w'')
        end
    end.

Definition this : M (VideoCompressor E) := fun w => (Ok (self w), w).

Definition set_self (s : VideoCompressor E) : M unit :=
  fun w => (Ok tt, {| self := s; trace := trace w; clock_reads := clock_reads w |}).

Definition record (c : Call) : M unit :=
  fun w => (Ok tt, {| self := self w; trace := trace w ++ [c];
                      clock_reads := clock_reads w |}).

(** [Date.now()] *)
Definition Date_now : M Z :=
  fun w => (Ok (clock (clock_reads w)),
            {| self := self w; trace := trace w; clock_reads := S (clock_reads w) |}).

(** A value that was thrown is rethrown; [await p] on a settled promise. *)
Definition await {A} (p : Res A) : M A :=
  match p with
  | Ok a => ret a
  | Throw e => throw e
  end.

Definition set_ffmpeg (e : option E) : M unit :=
  s <- this;;
  set_self {| config := config s; ffmpeg := e; loadingPromise := loadingPromise s;
              activeJobHooks := activeJobHooks s; isRunningJob := isRunningJob s |}.

Definition set_loadingPromise (p : option (Promise unit)) : M unit :=
  s <- this;;
  set_self {| config := config s; ffmpeg := ffmpeg s; loadingPromise := p;
              activeJobHooks := activeJobHooks s; isRunningJob := isRunningJob s |}.

Definition set_activeJobHooks (h : Hooks) : M unit :=
  s <- this;;
  set_self {| config := config s; ffmpeg := ffmpeg s; loadingPromise := loadingPromise s;
              activeJobHooks := h; isRunningJob := isRunningJob s |}.

Definition set_isRunningJob (b : bool) : M unit :=
  s <- this;;
  set_self {| config := config s; ffmpeg := ffmpeg s; loadingPromise := loadingPromise s;
              activeJobHooks := activeJobHooks s; isRunningJob := b |}.

(** [this.ffmpeg.method(...)]: a [TypeError] when [this.ffmpeg] is null,
    otherwise the call is made, the engine keeps its new state, and the
    call's result is returned. *)
Definition engine_call {A} (c : Call) (method : E -> E * A) : M A :=
  s <- this;;
  match ffmpeg s with
  | None => throw (Error "TypeError: Cannot read properties of null")
  | Some e =>
      record c;;
      let (e', a) := method e in
      set_ffmpeg (Some e');;
      ret a
  end.

(** *** init *)

(** [init], from its entry to [await this.loadingPromise] (source lines
    95-108). *)
Definition init_call : M (unit + InitPc) :=
  s <- this;;
  match ffmpeg s with
  | Some _ => ret (inl tt)
  | None =>
      p <- match loadingPromise s with
           | Some p => ret p
           | None =>
               let ffmpegOptions :=
                 {| opt_log := log (config s);
                    opt_corePath := if truthy_string (corePath (config s))
                                    then corePath (config s) else None |} in
               record (CFactory ffmpegOptions);;
               set_ffmpeg (Some (ffmpegFactory (config s) ffmpegOptions));;
               engine_call (COn "log") (fun e => (engine_on "log" e, tt));;
               engine_call (COn "progress") (fun e => (engine_on "progress" e, tt));;
               p <- engine_call CLoad engine_load;;
               set_loadingPromise (Some p);;
               ret p
           end;;
      ret (inr (AwaitLoad p))
  end.

(** [init] after its [await]: it returns, or rethrows the rejection. *)
Definition init_resume (pc : InitPc) : M (unit + InitPc) :=
  match pc with
  | AwaitLoad p => await p;; ret (inl tt)
  end.

(** The promise returned by a call [this.init()] made from [compress]:
    the inner call's continuation after its [await] only returns or
    rethrows, so the promise settles to what the awaited one settles to. *)
Definition init_promise : M (Promise unit) :=
  fun w =>
    match init_call w with
    | (Ok (inl _), w') => (Ok (Ok tt), w')
    | (Ok (inr (AwaitLoad p)), w') => (Ok p, w')
    | (Throw e, w') => (Ok (Throw e), w')
    end.

(** *** #cleanupFiles *)

(** The callback of [paths.forEach]: [this.ffmpeg?.FS('stat', path)], then
    [FS('unlink', path)] when the result is truthy, any error caught. *)
Definition cleanup_path (path : string) : M unit :=
  try_catch
    (s <- this;;
     found <- match ffmpeg s with
              | None => ret false
              | Some _ =>
                  r <- engine_call (CFS "stat" path) (engine_FS "stat" path);;
                  await r
              end;;
     if found : bool then
       r <- engine_call (CFS "unlink" path) (engine_FS "unlink" path);;
       await r;;
       ret tt
     else ret tt)
    (fun _ => ret tt).

Fixpoint forEach {A} (f : A -> M unit) (l : list A) : M unit :=
  match l with
  | [] => ret tt
  | x :: l' => f x;; forEach f l'
  end.

Definition cleanupFiles (paths : list string) : M unit :=
  forEach cleanup_path paths.

(** *** compress *)

(** The [finally] block of [compress]. *)
Definition finally_block (job : Job) : M unit :=
  set_isRunningJob false;;
  set_activeJobHooks no_hooks;;
  cleanupFiles [inputName job; outputName job].

(** A piece of the [try] block of [compress]: the [finally] block runs
    when the piece returns or throws, not when it suspends at an
    [await] inside the block. *)
Definition in_try (job : Job) (body : M (Blob + CompressPc)) : M (Blob + CompressPc) :=
  fun w =>
    match body w with
    | (Ok (inr pc), w') => (Ok (inr pc), w')
    | (r, w') => try_finally (fun w0 => (r, w0)) (finally_block job) w'
    end.

(** [a || b || null] on callbacks: a function is truthy. *)
Definition or_handler (a b : option Handler) : option Handler :=
  match a with
  | Some h => Some h
  | None => b
  end.

(** [compress], from its entry to its first [await] (source lines
    118-128). *)
Definition compress_call (file : FileArg) (options : option CompressionOptions)
  : M (Blob + CompressPc) :=
  f <- match file with
       | AFile f => ret f
       | ANotAFile => throw (Error "Input must be a browser File object.")
       end;;
  o <- match options with
       | Some o =>
           if truthy_string (mode o) then ret o
           else throw (Error "Compression mode is required.")
       | None => throw (Error "Compression mode is required.")
       end;;
  s <- this;;
  if isRunningJob s then
    throw (Error "Another compression job is already running on this instance.")
  else
    p <- init_promise;;
    ret (inr (AwaitInit f o p)).

(** [compress], from one [await] to the next.  [AwaitInit]: lines 128-140,
    up to the inner [await] of the fetch; the callee [this.ffmpeg.writeFile]
    is evaluated before the argument, so a null engine throws here.
    [AwaitFetch]: the call of [writeFile], line 140.  [AwaitWriteFile]:
    lines 141-143.  [AwaitExec]: line 144.  [AwaitReadFile]: line 145 and
    the [finally] block. *)
Definition compress_resume (pc : CompressPc) : M (Blob + CompressPc) :=
  match pc with
  | AwaitInit file options p =>
      await p;;
      s <- this;;
      set_activeJobHooks
        {| hook_onLog := or_handler (onLog options) (config_onLog (config s));
           hook_onProgress := or_handler (onProgress options) (config_onProgress (config s)) |};;
      let out := default no_output (output options) in
      let out_container := spread_over "mp4" (container out) in
      let out_mimeType := spread_over "video/mp4" (mimeType out) in
      let inputExtension := guessExtension (file_name file) (file_type file) in
      t <- Date_now;;
      let inputName := "input-" +:+ String_of_number t +:+ "." +:+ inputExtension in
      outputName <- (if truthy_string (fileName out) then ret (default EmptyString (fileName out))
                     else
                       t' <- Date_now;;
                       ret ("output-" +:+ String_of_number t' +:+ "."
                            +:+ interpolate out_container));;
      args <- await (buildArgs inputName outputName options);;
      s <- this;;
      match ffmpeg s with
      | None => throw (Error "TypeError: Cannot read properties of null")
      | Some _ =>
          record (CFetch file);;
          ret (inr (AwaitFetch
                      {| inputName := inputName; outputName := outputName;
                         args := args; job_mimeType := Blob_type out_mimeType |}
                      (fileFetcher (config s) file)))
      end
  | AwaitFetch job p =>
      data <- await p;;
      p' <- engine_call (CWriteFile (inputName job) data)
                        (engine_writeFile (inputName job) data);;
      ret (inr (AwaitWriteFile job p'))
  | AwaitWriteFile job p =>
      await p;;
      set_isRunningJob true;;
      in_try job
        (p' <- engine_call (CExec (args job)) (engine_exec (args job));;
         ret (inr (AwaitExec job p')))
  | AwaitExec job p =>
      in_try job
        (await p;;
         p' <- engine_call (CReadFile (outputName job)) (engine_readFile (outputName job));;
         ret (inr (AwaitReadFile job p')))
  | AwaitReadFile job p =>
      in_try job
        (data <- await p;;
         ret (inl {| blob_data := data; blob_type := job_mimeType job |}))
  end.

(** *** Tasks and schedules *)

(** The state of an [async] call after one of its pieces has run. *)
Definition as_task {A Pc} (m : M (A + Pc)) (w : World E) : Task A Pc * World E :=
  match m w with
  | (Ok (inl a), w') => (Settled (Ok a), w')
  | (Ok (inr pc), w') => (Suspended pc, w')
  | (Throw e, w') => (Settled (Throw e), w')
  end.

(** One instance, and the calls made on it so far. *)
Record System := {
  world : World E;
  inits : list (Task unit InitPc);
  jobs : list (Task Blob CompressPc)
}.

Definition new_System (cfg : VideoCompressorConfig E) : System :=
  {| world := new_World cfg; inits := []; jobs := [] |}.

Definition step (sys : System) (ev : Event) : System :=
  match ev with
  | CallInit =>
      let (t, w) := as_task init_call (world sys) in
      {| world := w; inits := inits sys ++ [t]; jobs := jobs sys |}
  | CallCompress file options =>
      let (t, w) := as_task (compress_call file options) (world sys) in
      {| world := w; inits := inits sys; jobs := jobs sys ++ [t] |}
  | ResumeInit i =>
      match inits sys !! i with
      | Some (Suspended pc) =>
          let (t, w) := as_task (init_resume pc) (world sys) in
          {| world := w; inits := <[i:=t]> (inits sys); jobs := jobs sys |}
      | _ => sys
      end
  | ResumeCompress i =>
      match jobs sys !! i with
      | Some (Suspended pc) =>
          let (t, w) := as_task (compress_resume pc) (world sys) in
          {| world := w; inits := inits sys; jobs := <[i:=t]> (jobs sys) |}
      | _ => sys
      end
  end.

Definition run (sys : System) (evs : list Event) : System :=
  fold_left step evs sys.

(** A [compress] call awaited with nothing else scheduled in between:
    the task is resumed until it settles.  [compress] has five
    [await]s, passed in order, so five resumptions always suffice. *)
Fixpoint settle (n : nat) (t : Task Blob CompressPc) (w : World E)
  : Task Blob CompressPc * World E :=
  match n, t with
  | S n', Suspended pc =>
      let (t', w') := as_task (compress_resume pc) w in settle n' t' w'
  | _, _ => (t, w)
  end.

Definition compress_await (file : FileArg) (options : option CompressionOptions)
  (w : World E) : Task Blob CompressPc * World E :=
  let (t, w') := as_task (compress_call file options) w in settle 5 t w'.

End Wrapper.

(** ** An in-memory engine for closed examples

    A test double in the manner of the repository's [StubFFmpeg]: a map of
    written files, with the failures to inject given at construction.
    [exec] writes the output file (the last argument) with the bytes of the
    input file (the second argument); [FS('stat')] throws for an absent
    path, and [FS('unlink')] removes a present one. *)
Module MemEngine.

Record t := {
  files : list (string * bytes);
  loaded : bool;
  listeners : list string;
  load_error : option JsError;
  exec_error : option JsError;
  read_error : option JsError
}.

Fixpoint get (name : string) (fs : list (string * bytes)) : option bytes :=
  match fs with
  | [] => None
  | (k, v) :: fs' => if k =? name then Some v else get name fs'
  end.

Fixpoint remove (name : string) (fs : list (string * bytes)) : list (string * bytes) :=
  match fs with
  | [] => []
  | (k, v) :: fs' => if k =? name then remove name fs' else (k, v) :: remove name fs'
  end.

Definition set (name : string) (data : bytes) (fs : list (string * bytes))
  : list (string * bytes) :=
  (name, data) :: remove name fs.

Definition has (e : t) (name : string) : bool :=
  match get name (files e) with
  | Some _ => true
  | None => false
  end.

Definition with_files (fs : list (string * bytes)) (e : t) : t :=
  {| files := fs; loaded := loaded e; listeners := listeners e;
     load_error := load_error e; exec_error := exec_error e;
     read_error := read_error e |}.

Definition not_loaded : JsError := Error "ffmpeg is not loaded".
Definition enoent : JsError := Error "ENOENT".

Definition on (event : string) (e : t) : t :=
  {| files := files e; loaded := loaded e; listeners := listeners e ++ [event];
     load_error := load_error e; exec_error := exec_error e;
     read_error := read_error e |}.

Definition load (e : t) : t * Promise unit :=
  match load_error e with
  | Some err => (e, Throw err)
  | None =>
      ({| files := files e; loaded := true; listeners := listeners e;
          load_error := load_error e; exec_error := exec_error e;
          read_error := read_error e |}, Ok tt)
  end.

Definition writeFile (name : string) (data : bytes) (e : t) : t * Promise unit :=
  if loaded e then (with_files (set name data (files e)) e, Ok tt)
  else (e, Throw not_loaded).

Definition exec (args : list string) (e : t) : t * Promise unit :=
  if loaded e then
    match exec_error e with
    | Some err => (e, Throw err)
    | None =>
        let input := default [] (get (nth 1 args EmptyString) (files e)) in
        (with_files (set (List.last args EmptyString) input (files e)) e, Ok tt)
    end
  else (e, Throw not_loaded).

Definition readFile (name : string) (e : t) : t * Promise bytes :=
  match read_error e with
  | Some err => (e, Throw err)
  | None =>
      match get name (files e) with
      | Some data => (e, Ok data)
      | None => (e, Throw enoent)
      end
  end.

Definition FS (op path : string) (e : t) : t * Res bool :=
  if op =? "stat" then
    if has e path then (e, Ok true) else (e, Throw enoent)
  else if op =? "unlink" then
    if has e path then (with_files (remove path (files e)) e, Ok true)
    else (e, Throw enoent)
  else (e, Throw (Error "unsupported FS operation")).

#[global] Instance engine : EngineOps t := {|
  engine_on := on;
  engine_load := load;
  engine_writeFile := writeFile;
  engine_exec := exec;
  engine_readFile := readFile;
  engine_FS := FS
|}.

(** A fresh engine, as a factory returns it. *)
Definition create (load_error exec_error read_error : option JsError)
  (o : FFmpegOptions) : t :=
  {| files := []; loaded := false; listeners := [];
     load_error := load_error; exec_error := exec_error; read_error := read_error |}.

(** The configuration of the examples: the fetcher hands back the file's
    bytes. *)
Definition cfg (load_error exec_error read_error : option JsError)
  : VideoCompressorConfig t :=
  {| corePath := None; log := true;
     ffmpegFactory := create load_error exec_error read_error;
     fileFetcher := fun f => Ok (file_data f);
     config_onLog := None; config_onProgress := None |}.

(** The clock of the examples: the [n]-th reading is [1700000000000 + n]. *)
Definition clock (n : nat) : Z := 1700000000000 + Z.of_nat n.

End MemEngine.

(** Inputs of the closed examples. *)
Definition sample_file : File :=
  {| file_name := "sample.mp4"; file_type := "video/mp4"; file_data := [Byte.x00] |}.

Definition options_of_mode (m : string) : CompressionOptions :=
  {| mode := Some m; video := None; audio := None; output := None;
     onProgress := None; onLog := None |}.

(** [{ mode, video: { crf: 20, bitrate: '1M' } }], with a per-job progress
    callback. *)
Definition conflicting_options (m : string) : CompressionOptions :=
  {| mode := Some m;
     video := Some {| video_codec := None; crf := Some (Number_of 20);
                      video_bitrate := Some "1M"; preset := None; scale := None |};
     audio := None; output := None;
     onProgress := Some (HandlerId 1); onLog := None |}.

(** ** Vocabulary of the statements *)

(** A directive: the flag immediately followed by its value. *)
Fixpoint has_directive (flag value : string) (l : list string) : bool :=
  match l with
  | a :: ((b :: _) as l') => ((a =? flag) && (b =? value)) || has_directive flag value l'
  | _ => false
  end.

(** The video options with the [scale] property removed. *)
Definition without_scale (v : VideoOptions) : VideoOptions :=
  {| video_codec := video_codec v; crf := crf v; video_bitrate := video_bitrate v;
     preset := preset v; scale := None |}.

(** [scale.width ?? -2], as the template of the scale filter prints it. *)
Definition dimension (d : option JsNumber) : string :=
  match d with
  | Some n => number_text n
  | None => "-2"
  end.

(** The video arguments of a re-encode other than the scale filter: the
    codec ([libx264] unless one is given), the quality factor or the
    bitrate when given, the preset when given. *)
Definition video_directives (v : VideoOptions) : list string :=
  ["-c:v"; default "libx264" (video_codec v)]
  ++ match crf v with Some q => ["-crf"; number_text q] | None => [] end
  ++ match video_bitrate v with Some b => ["-b:v"; b] | None => [] end
  ++ (if truthy_string (preset v) then ["-preset"; default EmptyString (preset v)] else []).

(** The calls [init] makes: creating the engine, registering the two
    forwarders, loading. *)
Definition is_init_call (c : Call) : bool :=
  match c with
  | CFactory _ | COn _ | CLoad => true
  | _ => false
  end.

Definition is_load_call (c : Call) : bool :=
  match c with
  | CLoad => true
  | _ => false
  end.

Definition is_factory_call (c : Call) : bool :=
  match c with
  | CFactory _ => true
  | _ => false
  end.

Definition is_exec_call (c : Call) : bool :=
  match c with
  | CExec _ => true
  | _ => false
  end.

(** The job of a [compress] call whose input was written: the call has
    passed [await this.ffmpeg.writeFile(...)] and is in, or about to enter,
    the [try] block. *)
Definition started_job (pc : CompressPc) : option Job :=
  match pc with
  | AwaitWriteFile job (Ok _) => Some job
  | AwaitExec job _ => Some job
  | AwaitReadFile job _ => Some job
  | _ => None
  end.

(** An engine whose [FS] behaves as a file system with respect to a
    presence test [present]: [stat] is truthy on a present path and creates
    nothing; [unlink] leaves its path absent and creates nothing. *)
Record LawfulFS {E} {ops : EngineOps E} (present : E -> string -> bool) : Prop := {
  stat_truthy : forall path e,
    snd (engine_FS "stat" path e) <> Ok true ->
    present (fst (engine_FS "stat" path e)) path = false;
  stat_creates_nothing : forall path q e,
    present e q = false -> present (fst (engine_FS "stat" path e)) q = false;
  unlink_removes : forall path e,
    present (fst (engine_FS "unlink" path e)) path = false;
  unlink_creates_nothing : forall path q e,
    present e q = false -> present (fst (engine_FS "unlink" path e)) q = false
}.

(** The world after the engine was called: the engine in state [e], the
    calls [l] appended to the trace, every other field as before. *)
Definition after_calls {E} (w : World E) (e : E) (l : list Call) : World E :=
  {| self := {| config := config (self w); ffmpeg := Some e;
                loadingPromise := loadingPromise (self w);
                activeJobHooks := activeJobHooks (self w);
                isRunningJob := isRunningJob (self w) |};
     trace := trace w ++ l;
     clock_reads := clock_reads w |}.

(** The effect of [#cleanupFiles] on one path, for an engine in state [e]:
    the engine afterwards and the [FS] calls made. *)
Definition cleanup_effect {E} {ops : EngineOps E} (path : string) (e : E) : E * list Call :=
  let (e1, r) := engine_FS "stat" path e in
  match r with
  | Ok true => (fst (engine_FS "unlink" path e1), [CFS "stat" path; CFS "unlink" path])
  | _ => (e1, [CFS "stat" path])
  end.

(** The instance after the [finally] block's two assignments. *)
Definition released {E} (w : World E) : World E :=
  {| self := {| config := config (self w); ffmpeg := ffmpeg (self w);
                loadingPromise := loadingPromise (self w);
                activeJobHooks := no_hooks;
                isRunningJob := false |};
     trace := trace w;
     clock_reads := clock_reads w |}.

(** The effect of [#cleanupFiles([inputName, outputName])]. *)
Definition finally_effect {E} {ops : EngineOps E} (job : Job) (e : E) : E * list Call :=
  let (e1, l1) := cleanup_effect (inputName job) e in
  let (e2, l2) := cleanup_effect (outputName job) e1 in
  (e2, l1 ++ l2).

(** The instance after [this.isRunningJob = true]. *)
Definition running {E} (w : World E) : World E :=
  {| self := {| config := config (self w); ffmpeg := ffmpeg (self w);
                loadingPromise := loadingPromise (self w);
                activeJobHooks := activeJobHooks (self w);
                isRunningJob := true |};
     trace := trace w;
     clock_reads := clock_reads w |}.

(** The blob [compress] returns for the bytes read back. *)
Definition blob_of (job : Job) (data : bytes) : Blob :=
  {| blob_data := data; blob_type := job_mimeType job |}.

(** The number of [await]s a suspended [compress] call still has ahead. *)
Definition awaits_left (pc : CompressPc) : nat :=
  match pc with
  | AwaitInit _ _ _ => 5
  | AwaitFetch _ _ => 4
  | AwaitWriteFile _ _ => 3
  | AwaitExec _ _ => 2
  | AwaitReadFile _ _ => 1
  end.

(** The options object [init] passes to the factory. *)
Definition ffmpegOptions_of {E} (cfg : VideoCompressorConfig E) : FFmpegOptions :=
  {| opt_log := log cfg;
     opt_corePath := if truthy_string (corePath cfg) then corePath cfg else None |}.

(** The engine as [init] leaves it, and the promise [load()] returned. *)
Definition created_engine {E} {ops : EngineOps E} (cfg : VideoCompressorConfig E)
  : E * Promise unit :=
  engine_load (engine_on "progress" (engine_on "log" (ffmpegFactory cfg (ffmpegOptions_of cfg)))).

(** The calls of [init] found in a trace. *)
Definition init_calls (l : list Call) : list Call := List.filter is_init_call l.

(** The engine of an instance is created at most once: either there is no
    engine, no pending load, and no call of [init] was made; or there is an
    engine, and the calls of [init] are those of one creation. *)
Definition created_once {E} (w : World E) : Prop :=
  match ffmpeg (self w) with
  | None => loadingPromise (self w) = None /\ init_calls (trace w) = []
  | Some _ =>
      init_calls (trace w)
      = [CFactory (ffmpegOptions_of (config (self w))); COn "log"; COn "progress"; CLoad]
  end.

(** What a piece of a method does to the engine of the instance: it keeps
    the configuration, keeps an engine once there is one, and keeps
    [created_once]. *)
Definition keeps_engine {E} (w w' : World E) : Prop :=
  config (self w') = config (self w) /\
  (ffmpeg (self w) <> None -> ffmpeg (self w') <> None) /\
  (created_once w -> created_once w').

(** The fresh instances of the closed examples: one whose engine works, one
    whose engine fails to load. *)
Definition example_cfg : VideoCompressorConfig MemEngine.t :=
  MemEngine.cfg None None None.

Definition failing_load_cfg : VideoCompressorConfig MemEngine.t :=
  MemEngine.cfg (Some (Error "load failed")) None None.

(** A schedule run on the in-memory engine with the examples' clock. *)
Definition example_run (cfg : VideoCompressorConfig MemEngine.t) (evs : list Event)
  : @System MemEngine.t :=
  run MemEngine.clock (new_System cfg) evs.

(** What the examples observe of a system: the files the engine holds, and
    the [exec] calls made. *)
Definition files_of (sys : @System MemEngine.t) : option (list (string * bytes)) :=
  option_map MemEngine.files (ffmpeg (self (world sys))).

Definition execs_of (sys : @System MemEngine.t) : list Call :=
  List.filter is_exec_call (trace (world sys)).

(** ** Event forwarding *)

(** [#forwardLog(message)]: the callback that is invoked, with its
    argument; [None] when no callback is active. *)
Definition forwardLog {E} (s : VideoCompressor E) (message : string)
  : option (Handler * string) :=
  match hook_onLog (activeJobHooks s) with
  | Some h => Some (h, message)
  | None => None
  end.

(** [#forwardProgress(progress)], for any representation [P] of the
    fraction. *)
Definition forwardProgress {E P} (s : VideoCompressor E) (progress : P)
  : option (Handler * P) :=
  match hook_onProgress (activeJobHooks s) with
  | Some h => Some (h, progress)
  | None => None
  end.

(** ** The page (video-app.js) *)

(** The two callbacks of the page, [updateProgress] and [appendLog]. *)
Definition updateProgress : Handler := HandlerId 100.
Definition appendLog : Handler := HandlerId 101.

(** [buildOutputName(file, mode)]: [slice(0, -1)] is [removelast],
    [join('.')] is [String.concat]. *)
Definition buildOutputName (file : File) (mode : string) : string :=
  let nameParts := split "." (file_name file) in
  let joined := String.concat "." (removelast nameParts) in
  let base := if negb (joined =? EmptyString) then joined else hd EmptyString nameParts in
  let suffix := if mode =? CompressionMode.REENCODE then "reencoded" else "compressed" in
  base +:+ "-" +:+ suffix +:+ ".mp4".

(** The [options] object [handleVideoFile] builds (source lines 95-111). *)
Definition handleVideoFile_options (mode outputName : string) : CompressionOptions :=
  let output := Some {| container := Absent; fileName := Some outputName;
                        mimeType := Value "video/mp4" |} in
  if mode =? CompressionMode.REENCODE then
    {| mode := Some mode;
       video := Some {| video_codec := Some "libx264"; crf := Some (Number_of 23);
                        video_bitrate := None; preset := Some "medium"; scale := None |};
       audio := Some {| mute := None; audio_codec := None; audio_bitrate := Some "128k" |};
       output := output; onProgress := Some updateProgress; onLog := Some appendLog |}
  else if mode =? CompressionMode.COPY_MUTE then
    {| mode := Some mode; video := None;
       audio := Some {| mute := Some true; audio_codec := None; audio_bitrate := None |};
       output := output; onProgress := Some updateProgress; onLog := Some appendLog |}
  else
    {| mode := Some mode; video := None; audio := None;
       output := output; onProgress := Some updateProgress; onLog := Some appendLog |}.

(** The mode is one of the three values of [CompressionMode]. *)
Definition supported_mode (m : option string) : bool :=
  match m with
  | Some m => (m =? CompressionMode.COPY) || (m =? CompressionMode.COPY_MUTE)
              || (m =? CompressionMode.REENCODE)
  | None => false
  end.

(** The video options carry both [crf] and [bitrate]. *)
Definition conflicting_video (v : option VideoOptions) : bool :=
  match v with
  | Some v =>
      match crf v, video_bitrate v with
      | Some _, Some _ => true
      | _, _ => false
      end
  | None => false
  end.

(** An [FS] call on one of the two virtual files of a job. *)
Definition is_cleanup_call (job : Job) (c : Call) : bool :=
  match c with
  | CFS op path =>
      ((op =? "stat") || (op =? "unlink"))
      && ((path =? inputName job) || (path =? outputName job))
  | _ => false
  end.

(** An event of [init]: a call of it, or the resumption of one. *)
Definition is_init_event (ev : Event) : bool :=
  match ev with
  | CallInit | ResumeInit _ => true
  | _ => false
  end.

(** The active callbacks a [compress] call installs (source lines 129-132). *)
Definition resolved_hooks {E} (options : CompressionOptions) (cfg : VideoCompressorConfig E)
  : Hooks :=
  {| hook_onLog := or_handler (onLog options) (config_onLog cfg);
     hook_onProgress := or_handler (onProgress options) (config_onProgress cfg) |}.

(** The busy flag is down whenever a call is suspended before the [try]
    block, or has settled. *)
Definition idle_outside_job {E} (t : Task Blob CompressPc) (w : World E) : Prop :=
  match t with
  | Suspended (AwaitExec _ _) | Suspended (AwaitReadFile _ _) => True
  | _ => isRunningJob (self w) = false
  end.

(** ** The page's handler (video-app.js, [handleVideoFile])

    Of the page, the state the control flow reads and writes is modelled:
    the flag [isProcessing], the text of the status line ([setStatus]), the
    blob and download name last shown ([setOutput]), and the value of the
    mode selector, which the user controls.  The progress bar, the log
    area and object URLs are left out; the elements are assumed to
    exist. *)
Record Page := {
  isProcessing : bool;
  status : string;
  shown : option (Blob * string);
  modeSelect : string
}.

(** Suspension points of [handleVideoFile]: [await init()] and
    [await compress(file, options)]; the second holds the download name
    and the [compress] call it awaits. *)
Inductive PagePc :=
| AwaitPageInit (file : File) (p : Promise unit)
| AwaitPageCompress (name : string) (call : Task Blob CompressPc).

Definition set_status (text : string) (pg : Page) : Page :=
  {| isProcessing := isProcessing pg; status := text; shown := shown pg;
     modeSelect := modeSelect pg |}.

Definition set_isProcessing (b : bool) (pg : Page) : Page :=
  {| isProcessing := b; status := status pg; shown := shown pg;
     modeSelect := modeSelect pg |}.

(** [setOutput(blob, fileName)] *)
Definition setOutput (blob : Blob) (name : string) (pg : Page) : Page :=
  {| isProcessing := isProcessing pg; status := status pg; shown := Some (blob, name);
     modeSelect := modeSelect pg |}.

(** The status line [handleVideoFile] sets for a mode. *)
Definition mode_status (mode : string) : string :=
  if mode =? CompressionMode.REENCODE then "Re-encoding video for smaller size..."
  else if mode =? CompressionMode.COPY_MUTE then "Copying streams and muting audio..."
  else "Copying video and audio streams...".

(** The [try]/[catch]/[finally] of [handleVideoFile], entered with the
    outcome of the awaited [compress] call (source lines 113-121). *)
Definition handleVideoFile_after_compress (name : string) (r : Res Blob) (pg : Page) : Page :=
  set_isProcessing false
    match r with
    | Ok blob => set_status "Video ready to download or preview." (setOutput blob name pg)
    | Throw (Error message) => set_status ("Video compression failed: " +:+ message) pg
    end.

Section PageModel.
Context {E : Type} {ops : EngineOps E}.
Variable clock : nat -> Z.

(** [handleVideoFile(file)], from its entry to [await init()] (source
    lines 85-90); [file] is [None] for a falsy argument. *)
Definition handleVideoFile_call (file : option File) (pg : Page) (w : World E)
  : Task unit PagePc * Page * World E :=
  match file with
  | None => (Settled (Ok tt), pg, w)
  | Some f =>
      if isProcessing pg then (Settled (Ok tt), pg, w)
      else
        let pg := set_isProcessing true pg in
        let pg := set_status EmptyString pg in
        let pg := set_status "Loading FFmpeg core..." pg in
        match init_promise w with
        | (Ok p, w') => (Suspended (AwaitPageInit f p), pg, w')
        | (Throw e, w') => (Settled (Throw e), pg, w')
        end
  end.

(** [handleVideoFile] after [await init()], up to the call of [compress]
    (source lines 90-114).  A rejected initialization rejects the handler:
    the [await] is outside the [try] block. *)
Definition handleVideoFile_after_init (f : File) (p : Promise unit) (pg : Page) (w : World E)
  : Task unit PagePc * Page * World E :=
  match p with
  | Throw e => (Settled (Throw e), pg, w)
  | Ok _ =>
      let mode := modeSelect pg in
      let name := buildOutputName f mode in
      let options := handleVideoFile_options mode name in
      let pg := set_status (mode_status mode) pg in
      let (call, w') := as_task (compress_call (AFile f) (Some options)) w in
      (Suspended (AwaitPageCompress name call), pg, w')
  end.

(** The handler run with nothing else scheduled in between: each awaited
    promise is delivered as soon as it is there. *)
Definition handleVideoFile_await (file : option File) (pg : Page) (w : World E)
  : Task unit PagePc * Page * World E :=
  match handleVideoFile_call file pg w with
  | (Suspended (AwaitPageInit f p), pg1, w1) =>
      match handleVideoFile_after_init f p pg1 w1 with
      | (Suspended (AwaitPageCompress name call), pg2, w2) =>
          match settle clock 5 call w2 with
          | (Settled r, w3) => (Settled (Ok tt), handleVideoFile_after_compress name r pg2, w3)
          | (Suspended pc, w3) =>
              (Suspended (AwaitPageCompress name (Suspended pc)), pg2, w3)
          end
      | other => other
      end
  | other => other
  end.

End PageModel.

(** The configuration the page passes to [createVideoCompressor], given the
    library's factory and fetcher. *)
Definition page_cfg {E} (factory : FFmpegOptions -> E) (fetcher : File -> Promise bytes)
  : VideoCompressorConfig E :=
  {| corePath := Some "/ffmpeg"; log := true;
     ffmpegFactory := factory; fileFetcher := fetcher;
     config_onLog := Some appendLog; config_onProgress := Some updateProgress |}.

(** The page as it is loaded: idle, nothing shown. *)
Definition new_Page (mode : string) : Page :=
  {| isProcessing := false; status := EmptyString; shown := None; modeSelect := mode |}.

(** ** The contract of [compress]

    What an awaited [compress] call amounts to, written as one sequence of
    steps, without tasks, without the [try] block and without cleanup: the
    first step that fails gives the outcome, and when none fails the
    outcome is the blob of the bytes read back.  Each function gives the
    outcome from one step on, together with the calls made to the
    collaborators from there. *)

Section Contract.
Context {E : Type} {ops : EngineOps E}.
Variable clock : nat -> Z.

(** From the settlement of [readFile]. *)
Definition contract_read (job : Job) (p : Promise bytes) : Res Blob :=
  match p with
  | Ok data => Ok {| blob_data := data; blob_type := job_mimeType job |}
  | Throw err => Throw err
  end.

(** From the settlement of [exec], the engine being in state [e]. *)
Definition contract_exec (job : Job) (p : Promise unit) (e : E) : Res Blob * list Call :=
  match p with
  | Throw err => (Throw err, [])
  | Ok _ =>
      (contract_read job (snd (engine_readFile (outputName job) e)),
       [CReadFile (outputName job)])
  end.

(** From the settlement of [writeFile]. *)
Definition contract_write (job : Job) (p : Promise unit) (e : E) : Res Blob * list Call :=
  match p with
  | Throw err => (Throw err, [])
  | Ok _ =>
      let e' := fst (engine_exec (args job) e) in
      let p' := snd (engine_exec (args job) e) in
      (fst (contract_exec job p' e'), CExec (args job) :: snd (contract_exec job p' e'))
  end.

(** From the settlement of the fetch. *)
Definition contract_fetch (job : Job) (p : Promise bytes) (e : E) : Res Blob * list Call :=
  match p with
  | Throw err => (Throw err, [])
  | Ok data =>
      let e' := fst (engine_writeFile (inputName job) data e) in
      let p' := snd (engine_writeFile (inputName job) data e) in
      (fst (contract_write job p' e'),
       CWriteFile (inputName job) data :: snd (contract_write job p' e'))
  end.

(** The job of a call that takes its clock readings from the [reads]-th
    on: the two names, the arguments built for them (option validation),
    and the type of the blob. *)
Definition contract_job (reads : nat) (f : File) (o : CompressionOptions) : Res Job :=
  let out := default no_output (output o) in
  let input := "input-" +:+ String_of_number (clock reads) +:+ "."
               +:+ guessExtension (file_name f) (file_type f) in
  let output :=
    if truthy_string (fileName out) then default EmptyString (fileName out)
    else "output-" +:+ String_of_number (clock (S reads)) +:+ "."
         +:+ interpolate (spread_over "mp4" (container out)) in
  match buildArgs input output o with
  | Ok l =>
      Ok {| inputName := input; outputName := output; args := l;
            job_mimeType := Blob_type (spread_over "video/mp4" (mimeType out)) |}
  | Throw err => Throw err
  end.

(** Initialization as the call finds the instance: the engine afterwards,
    the promise the call awaits, and the calls made.  With an engine,
    nothing is done; with a pending load, that load is awaited; otherwise
    the engine is created and its load awaited. *)
Definition contract_init (w : World E) : option E * Promise unit * list Call :=
  match ffmpeg (self w) with
  | Some e => (Some e, Ok tt, [])
  | None =>
      match loadingPromise (self w) with
      | Some p => (None, p, [])
      | None =>
          (Some (fst (created_engine (config (self w)))),
           snd (created_engine (config (self w))),
           [CFactory (ffmpegOptions_of (config (self w))); COn "log"; COn "progress"; CLoad])
      end
  end.

(** The whole call. *)
Definition contract_run (file : FileArg) (options : option CompressionOptions) (w : World E)
  : Res Blob * list Call :=
  match file, options with
  | ANotAFile, _ => (Throw (Error "Input must be a browser File object."), [])
  | AFile _, None => (Throw (Error "Compression mode is required."), [])
  | AFile f, Some o =>
      if negb (truthy_string (mode o)) then
        (Throw (Error "Compression mode is required."), [])
      else if isRunningJob (self w) then
        (Throw (Error "Another compression job is already running on this instance."), [])
      else
        let created := snd (contract_init w) in
        match snd (fst (contract_init w)) with
        | Throw err => (Throw err, created)
        | Ok _ =>
            match contract_job (clock_reads w) f o with
            | Throw err => (Throw err, created)
            | Ok job =>
                match fst (fst (contract_init w)) with
                | None => (Throw (Error "TypeError: Cannot read properties of null"), created)
                | Some e =>
                    let fetched := fileFetcher (config (self w)) f in
                    (fst (contract_fetch job fetched e),
                     created ++ CFetch f :: snd (contract_fetch job fetched e))
                end
            end
        end
  end.

End Contract.

(** A resumed call settles with outcome [r], having made the calls [l]
    and then only cleanup calls for the files of [job]; when it resolves,
    the instance is idle and has no active callbacks. *)
Definition settles_with {E} (job : Job) (result : Task Blob CompressPc * World E)
  (w : World E) (r : Res Blob) (l : list Call) : Prop :=
  exists cleaned,
    fst result = Settled r /\
    trace (snd result) = trace w ++ l ++ cleaned /\
    forallb (is_cleanup_call job) cleaned = true /\
    (forall blob, r = Ok blob ->
       isRunningJob (self (snd result)) = false /\
       activeJobHooks (self (snd result)) = no_hooks).

(** * Argument building: properties *)

Lemma truthy_string_Some (s : string) : s <> EmptyString -> truthy_string (Some s) = true.
Proof.
  intros Hs. unfold truthy_string.
  destruct (String.eqb_spec s EmptyString); [contradiction | reflexivity].
Qed.

Lemma buildArgs_copy (i o : string) (opts : CompressionOptions) :
  mode opts = Some CompressionMode.COPY ->
  buildArgs i o opts =
  Ok (["-i"; i] ++ ["-c:v"; "copy"; "-c:a"; "copy"; "-movflags"; "+faststart"] ++ ["-y"; o]).
Proof. intros Hm. unfold buildArgs. rewrite Hm. reflexivity. Qed.

Lemma buildArgs_copy_mute (i o : string) (opts : CompressionOptions) :
  mode opts = Some CompressionMode.COPY_MUTE ->
  buildArgs i o opts =
  Ok (["-i"; i] ++ ["-c:v"; "copy"; "-an"; "-movflags"; "+faststart"] ++ ["-y"; o]).
Proof. intros Hm. unfold buildArgs. rewrite Hm. reflexivity. Qed.

Lemma applyVideoOptions_prefix (args : list string) (v : option VideoOptions) (r : list string) :
  applyVideoOptions args v = Ok r -> exists l, r = args ++ l.
Proof.
  unfold applyVideoOptions. intros H.
  repeat match type of H with
         | context [match ?x with _ => _ end] => destruct x
         end;
    try discriminate; inversion H; subst; clear H;
    rewrite <- ?app_assoc; eexists; reflexivity.
Qed.

Lemma applyAudioOptions_prefix (args : list string) (a : option AudioOptions) :
  exists l, applyAudioOptions args a = args ++ l.
Proof.
  unfold applyAudioOptions.
  repeat match goal with
         | |- context [if ?x then _ else _] => destruct x
         end;
    rewrite <- ?app_assoc; eexists; reflexivity.
Qed.

Lemma buildArgs_reencode (i o : string) (opts : CompressionOptions) :
  mode opts = Some CompressionMode.REENCODE ->
  buildArgs i o opts =
  match applyVideoOptions ["-i"; i] (video opts) with
  | Throw e => Throw e
  | Ok vargs =>
      Ok (applyAudioOptions vargs (audio opts) ++ ["-movflags"; "+faststart"] ++ ["-y"; o])
  end.
Proof.
  intros Hm. unfold buildArgs. rewrite Hm. cbn.
  destruct (applyVideoOptions _ _); [| reflexivity].
  rewrite <- app_assoc. reflexivity.
Qed.

(** C4.  Whenever [#buildArgs] returns a list, the list is ["-i"],
    the input name, the mode's directives, ["-y"], the output name.  For
    mode copy the directives are video copy, audio copy and fast start; for
    mode copy-mute they are video copy, the audio-strip flag and fast
    start, with no audio-codec flag among them.  In both of these modes a
    list is always returned. *)
Theorem C4_buildArgs_shape (i o : string) (opts : CompressionOptions) :
  (forall args, buildArgs i o opts = Ok args ->
     exists mid, args = ["-i"; i] ++ mid ++ ["-y"; o]) /\
  (mode opts = Some CompressionMode.COPY ->
     exists mid, buildArgs i o opts = Ok (["-i"; i] ++ mid ++ ["-y"; o]) /\
       has_directive "-c:v" "copy" mid = true /\
       has_directive "-c:a" "copy" mid = true /\
       has_directive "-movflags" "+faststart" mid = true) /\
  (mode opts = Some CompressionMode.COPY_MUTE ->
     exists mid, buildArgs i o opts = Ok (["-i"; i] ++ mid ++ ["-y"; o]) /\
       In "-an" mid /\
       has_directive "-movflags" "+faststart" mid = true /\
       ~ In "-c:a" mid).
Proof.
  split; [| split].
  - intros args H. unfold buildArgs in H.
    destruct (mode opts) as [m |]; [| discriminate].
    destruct (m =? CompressionMode.COPY).
    { inversion H.
      exists ["-c:v"; "copy"; "-c:a"; "copy"; "-movflags"; "+faststart"]. reflexivity. }
    destruct (m =? CompressionMode.COPY_MUTE).
    { inversion H.
      exists ["-c:v"; "copy"; "-an"; "-movflags"; "+faststart"]. reflexivity. }
    destruct (m =? CompressionMode.REENCODE); [| discriminate].
    destruct (applyVideoOptions ["-i"; i] (video opts)) as [vargs | e] eqn:Hv;
      [| discriminate].
    destruct (applyVideoOptions_prefix _ _ _ Hv) as [l1 ->].
    destruct (applyAudioOptions_prefix (["-i"; i] ++ l1) (audio opts)) as [l2 Ha].
    cbn in H, Ha. rewrite Ha in H. inversion H.
    exists (l1 ++ l2 ++ ["-movflags"; "+faststart"]).
    cbn. rewrite <- !app_assoc. reflexivity.
  - intros Hm. eexists. split; [apply buildArgs_copy, Hm |].
    repeat split; reflexivity.
  - intros Hm. eexists. split; [apply buildArgs_copy_mute, Hm |].
    split; [cbn; tauto |]. split; [reflexivity |].
    cbn. intros [H | [H | [H | [H | [H | []]]]]]; discriminate.
Qed.

Lemma C4_witness :
  exists mid,
    buildArgs "input-1.mp4" "out.mp4" (options_of_mode "copy-mute")
    = Ok (["-i"; "input-1.mp4"] ++ mid ++ ["-y"; "out.mp4"]) /\
    In "-an" mid /\
    has_directive "-movflags" "+faststart" mid = true /\
    ~ In "-c:a" mid.
Proof.
  exact (proj2 (proj2 (C4_buildArgs_shape "input-1.mp4" "out.mp4"
                         (options_of_mode "copy-mute"))) eq_refl).
Defined.

(** C5.  The audio arguments of a re-encode, by precedence, for the audio
    options of the call or, when the call has none, for the empty object
    ("given" meaning a non-empty string, the test the method applies):
    muted, the audio-strip flag and nothing else; otherwise the given codec,
    followed by the audio-bitrate directive when a bitrate is given;
    otherwise, when a bitrate is given, ["aac"] followed by the
    audio-bitrate directive; otherwise ["copy"] and nothing else.  In mode
    re-encode these are the arguments [#buildArgs] places after the video
    arguments, whatever the [audio] property of the options is. *)
Theorem C5_audio_precedence (args : list string) (audioOptions : option AudioOptions) :
  let a := default no_audio audioOptions in
  (truthy_bool (mute a) = true ->
     applyAudioOptions args audioOptions = args ++ ["-an"]) /\
  (truthy_bool (mute a) = false ->
     (forall c b, audio_codec a = Some c -> c <> EmptyString ->
        audio_bitrate a = Some b -> b <> EmptyString ->
        applyAudioOptions args audioOptions = args ++ ["-c:a"; c] ++ ["-b:a"; b]) /\
     (forall c, audio_codec a = Some c -> c <> EmptyString ->
        truthy_string (audio_bitrate a) = false ->
        applyAudioOptions args audioOptions = args ++ ["-c:a"; c]) /\
     (forall b, truthy_string (audio_codec a) = false ->
        audio_bitrate a = Some b -> b <> EmptyString ->
        applyAudioOptions args audioOptions = args ++ ["-c:a"; "aac"] ++ ["-b:a"; b]) /\
     (truthy_string (audio_codec a) = false ->
      truthy_string (audio_bitrate a) = false ->
        applyAudioOptions args audioOptions = args ++ ["-c:a"; "copy"])) /\
  (forall i o opts vargs,
     mode opts = Some CompressionMode.REENCODE ->
     audio opts = audioOptions ->
     applyVideoOptions ["-i"; i] (video opts) = Ok vargs ->
     buildArgs i o opts =
     Ok (applyAudioOptions vargs audioOptions ++ ["-movflags"; "+faststart"] ++ ["-y"; o])).
Proof.
  intros a.
  assert (Ha : applyAudioOptions args audioOptions = applyAudioOptions args (Some a))
    by (destruct audioOptions; reflexivity).
  rewrite Ha. clearbody a. clear Ha.
  split; [| split].
  - intros Hm. unfold applyAudioOptions. rewrite Hm. reflexivity.
  - intros Hm. unfold applyAudioOptions. rewrite Hm.
    repeat split.
    + intros c b Hc Hne Hb Hnb.
      rewrite Hc, Hb, (truthy_string_Some c Hne), (truthy_string_Some b Hnb). cbn.
      rewrite <- app_assoc. reflexivity.
    + intros c Hc Hne Hb. rewrite Hb, Hc, (truthy_string_Some c Hne). reflexivity.
    + intros b Hc Hb Hnb. rewrite Hc, Hb, (truthy_string_Some b Hnb). cbn.
      rewrite <- app_assoc. reflexivity.
    + intros Hc Hb. rewrite Hc, Hb. reflexivity.
  - intros i o opts vargs Hm Hao Hv.
    rewrite (buildArgs_reencode i o opts Hm), Hv, Hao. reflexivity.
Qed.

(** The case of the spec's example: only a bitrate, no codec. *)
Lemma C5_witness :
  applyAudioOptions ["-i"; "in.mp4"; "-c:v"; "libx264"]
    (Some {| mute := None; audio_codec := None; audio_bitrate := Some "128k" |})
  = ["-i"; "in.mp4"; "-c:v"; "libx264"] ++ ["-c:a"; "aac"] ++ ["-b:a"; "128k"].
Proof.
  refine (proj1 (proj2 (proj2 (proj1 (proj2 (C5_audio_precedence
           ["-i"; "in.mp4"; "-c:v"; "libx264"]
           (Some {| mute := None; audio_codec := None; audio_bitrate := Some "128k" |})))
           eq_refl))) "128k" eq_refl eq_refl _).
  discriminate.
Defined.

(** Without audio options the audio stream is copied. *)
Lemma applyAudioOptions_default (args : list string) :
  applyAudioOptions args None = args ++ ["-c:a"; "copy"].
Proof. reflexivity. Qed.

Lemma applyVideoOptions_without_scale (args : list string) (v : VideoOptions) :
  scale v = None ->
  applyVideoOptions args (Some (without_scale v)) = applyVideoOptions args (Some v).
Proof.
  intros Hs. unfold applyVideoOptions, without_scale. cbn. rewrite Hs. reflexivity.
Qed.


(** C8, as amended.  In a re-encode whose video options do not carry both
    [crf] and [bitrate], for the video options of the call or, when the
    call has none, for the empty object: if [scale] is supplied with at
    least one truthy dimension (a number other than [0] and [NaN]), the
    video arguments are the codec, quality and preset directives followed
    by ["-vf"] and [scale=<width>:<height>], each dimension as [String]
    prints it and an omitted one written [-2]; if [scale] is not supplied,
    or each dimension is omitted, [0] or [NaN], the video arguments are the
    codec, quality and preset directives and nothing else.  In mode
    re-encode these are the arguments [#buildArgs] places after the input
    name, whatever the [video] property of the options is. *)
Theorem C8_scale_filter (args : list string) (videoOptions : option VideoOptions) :
  let v := default no_video videoOptions in
  conflicting_video videoOptions = false ->
  (forall sc, scale v = Some sc ->
     truthy_number (width sc) || truthy_number (height sc) = true ->
     applyVideoOptions args videoOptions =
     Ok (args ++ video_directives v
              ++ ["-vf"; "scale=" +:+ dimension (width sc) +:+ ":" +:+ dimension (height sc)])) /\
  (forall sc, scale v = Some sc ->
     truthy_number (width sc) || truthy_number (height sc) = false ->
     applyVideoOptions args videoOptions = Ok (args ++ video_directives v)) /\
  (scale v = None ->
     applyVideoOptions args videoOptions = Ok (args ++ video_directives v)) /\
  (forall i o opts vargs,
     mode opts = Some CompressionMode.REENCODE ->
     video opts = videoOptions ->
     applyVideoOptions ["-i"; i] videoOptions = Ok vargs ->
     buildArgs i o opts =
     Ok (applyAudioOptions vargs (audio opts) ++ ["-movflags"; "+faststart"] ++ ["-y"; o])).
Proof.
  intros v Hc.
  assert (Hv : applyVideoOptions args videoOptions = applyVideoOptions args (Some v))
    by (destruct videoOptions; reflexivity).
  assert (Hc' : conflicting_video (Some v) = false)
    by (destruct videoOptions; [exact Hc | reflexivity]).
  split; [| split; [| split]].
  4: { intros i o opts vargs Hm Hvo Hvargs.
       rewrite (buildArgs_reencode i o opts Hm), Hvo, Hvargs. reflexivity. }
  all: rewrite Hv; clearbody v; clear Hv Hc.
  all: destruct v as [codec q b p s].
  all: unfold applyVideoOptions, video_directives, dimension, conflicting_video in *;
    cbn in *.
  all: destruct q as [q |], b as [b |]; try discriminate.
  all: try (intros sc Hs Ht; subst s; rewrite Ht).
  all: try (intros Hs; subst s).
  all: destruct (truthy_string p), codec; cbn; rewrite <- ?app_assoc; reflexivity.
Qed.

(** Without video options the method behaves as for the empty object. *)
Lemma applyVideoOptions_default (args : list string) :
  applyVideoOptions args None = Ok (args ++ ["-c:v"; "libx264"]).
Proof. reflexivity. Qed.

(** [{ crf: 23, scale: { width: 1280 } }] *)
Lemma C8_witness :
  applyVideoOptions ["-i"; "in.mp4"]
    (Some {| video_codec := None; crf := Some (Number_of 23); video_bitrate := None;
             preset := None;
             scale := Some {| width := Some (Number_of 1280); height := None |} |})
  = Ok (["-i"; "in.mp4"] ++ ["-c:v"; "libx264"; "-crf"; "23"] ++ ["-vf"; "scale=1280:-2"]).
Proof.
  exact (proj1 (C8_scale_filter ["-i"; "in.mp4"]
           (Some {| video_codec := None; crf := Some (Number_of 23); video_bitrate := None;
                    preset := None;
                    scale := Some {| width := Some (Number_of 1280); height := None |} |})
           eq_refl)
         {| width := Some (Number_of 1280); height := None |} eq_refl eq_refl).
Defined.

(** C8 as stated fails when the only dimension supplied is [0]:
    [scale: { width: 0 }] has a dimension present, and no scale filter is
    appended (the claimed one would be ["-vf"; "scale=0:-2"]). *)
Lemma C8_counterexample :
  let v := {| video_codec := None; crf := None; video_bitrate := None; preset := None;
              scale := Some {| width := Some (Number_of 0); height := None |} |} in
  width {| width := Some (Number_of 0); height := None |} <> None /\
  applyVideoOptions ["-i"; "in.mp4"] (Some v) = Ok ["-i"; "in.mp4"; "-c:v"; "libx264"] /\
  forall args, applyVideoOptions ["-i"; "in.mp4"] (Some v) = Ok args ->
    has_directive "-vf" "scale=0:-2" args = false.
Proof.
  cbn. split; [discriminate |]. split; [reflexivity |].
  intros args H. inversion H. reflexivity.
Qed.

(** A zero dimension next to a non-zero one is written as it is, not as
    [-2]: treating zero as "omitted" throughout does not rescue the claim. *)
Lemma scale_zero_width_kept :
  applyVideoOptions []
    (Some {| video_codec := None; crf := None; video_bitrate := None; preset := None;
             scale := Some {| width := Some (Number_of 0); height := Some (Number_of 720) |} |})
  = Ok ["-c:v"; "libx264"; "-vf"; "scale=0:720"].
Proof. reflexivity. Qed.

(** A re-encode without video and audio options: the default video codec,
    no scale filter, the audio stream copied. *)
Lemma reencode_without_stream_options :
  buildArgs "in.mp4" "out.mp4" (options_of_mode "reencode")
  = Ok ["-i"; "in.mp4"; "-c:v"; "libx264"; "-c:a"; "copy"; "-movflags"; "+faststart";
        "-y"; "out.mp4"].
Proof. reflexivity. Qed.

(** * The stateful methods: properties *)

Section WrapperProperties.
Context {E : Type} {ops : EngineOps E}.
Variable clock : nat -> Z.

Lemma after_calls_nil (w : World E) (e : E) :
  ffmpeg (self w) = Some e -> after_calls w e [] = w.
Proof.
  destruct w as [[c f l h b] t n]. cbn. intros ->.
  unfold after_calls. cbn. rewrite app_nil_r. reflexivity.
Qed.

Lemma after_calls_after_calls (w : World E) (e1 e2 : E) (l1 l2 : list Call) :
  after_calls (after_calls w e1 l1) e2 l2 = after_calls w e2 (l1 ++ l2).
Proof. unfold after_calls. cbn. rewrite app_assoc. reflexivity. Qed.

(** [#cleanupFiles] on one path never throws. *)
Lemma cleanup_path_run (path : string) (w : World E) (e : E) :
  ffmpeg (self w) = Some e ->
  cleanup_path path w =
  (Ok tt, after_calls w (fst (cleanup_effect path e)) (snd (cleanup_effect path e))).
Proof.
  destruct w as [[c f l h b] t n]. cbn. intros ->.
  unfold cleanup_path, cleanup_effect, after_calls, try_catch, engine_call,
    set_ffmpeg, set_self, record, this, bind, ret, throw, await.
  cbn.
  destruct (engine_FS "stat" path e) as [e1 [[|] | err]]; cbn.
  - destruct (engine_FS "unlink" path e1) as [e2 [b' | err]]; cbn;
      rewrite <- app_assoc; reflexivity.
  - reflexivity.
  - reflexivity.
Qed.

Lemma cleanup_path_no_engine (path : string) (w : World E) :
  ffmpeg (self w) = None -> cleanup_path path w = (Ok tt, w).
Proof.
  intros He. unfold cleanup_path, try_catch, bind, this. cbn. rewrite He. reflexivity.
Qed.
Ltac unfold_wrapper :=
  unfold compress_resume, compress_call, init_promise, init_call, init_resume,
    in_try, finally_block, cleanupFiles, forEach, cleanup_path,
    try_finally, try_catch, engine_call,
    set_isRunningJob, set_activeJobHooks, set_loadingPromise, set_ffmpeg, set_self,
    record, Date_now, this, bind, ret, throw, await, as_task in *.

Ltac destruct_world w :=
  let c := fresh "cfg" in
  let f := fresh "eng" in
  let l := fresh "lp" in
  let h := fresh "hooks" in
  let b := fresh "busy" in
  let t := fresh "tr" in
  let n := fresh "reads" in
  destruct w as [[c f l h b] t n]; cbn in *.

(** [#cleanupFiles] never throws, whatever [FS] does. *)
Lemma cleanupFiles_never_throws (paths : list string) (w : World E) :
  fst (cleanupFiles paths w) = Ok tt.
Proof.
  revert w. induction paths as [| path paths IH]; intros w; [reflexivity |].
  unfold cleanupFiles. cbn [forEach]. unfold bind at 1.
  destruct (ffmpeg (self w)) as [e |] eqn:He.
  - rewrite (cleanup_path_run path w e He). apply IH.
  - rewrite (cleanup_path_no_engine path w He). apply IH.
Qed.

Lemma finally_block_run (job : Job) (w : World E) (e : E) :
  ffmpeg (self w) = Some e ->
  finally_block job w =
  (Ok tt, after_calls (released w) (fst (finally_effect job e)) (snd (finally_effect job e))).
Proof.
  destruct_world w. intros ->.
  unfold finally_block, cleanupFiles, forEach, set_isRunningJob, set_activeJobHooks,
    set_self, this, bind, ret. cbn -[cleanup_path].
  erewrite cleanup_path_run by reflexivity.
  erewrite cleanup_path_run by reflexivity.
  unfold finally_effect.
  destruct (cleanup_effect (inputName job) e) as [e1 l1]. cbn.
  destruct (cleanup_effect (outputName job) e1) as [e2 l2]. cbn.
  rewrite after_calls_after_calls. reflexivity.
Qed.

Lemma finally_block_no_engine (job : Job) (w : World E) :
  ffmpeg (self w) = None -> finally_block job w = (Ok tt, released w).
Proof.
  destruct_world w. intros ->. reflexivity.
Qed.

(** The [finally] block never throws. *)
Lemma finally_block_never_throws (job : Job) (w : World E) :
  fst (finally_block job w) = Ok tt.
Proof.
  destruct (ffmpeg (self w)) as [e |] eqn:He.
  - rewrite (finally_block_run job w e He). reflexivity.
  - rewrite (finally_block_no_engine job w He). reflexivity.
Qed.

(** Leaving the [try] block by return or throw keeps that outcome. *)
Lemma in_try_exit (job : Job) (body : M (Blob + CompressPc)) (w w1 : World E)
    (r : Res (Blob + CompressPc)) :
  body w = (r, w1) ->
  (forall pc, r <> Ok (inr pc)) ->
  in_try job body w = (r, snd (finally_block job w1)).
Proof.
  intros Hb Hr. unfold in_try. rewrite Hb.
  assert (Hf := finally_block_never_throws job w1).
  destruct r as [[blob | pc] | err]; try (exfalso; eapply Hr; reflexivity);
    unfold try_finally; destruct (finally_block job w1) as [[[] | e] w2];
    cbn in *; congruence.
Qed.

Lemma in_try_suspend (job : Job) (body : M (Blob + CompressPc)) (w w1 : World E)
    (pc : CompressPc) :
  body w = (Ok (inr pc), w1) ->
  in_try job body w = (Ok (inr pc), w1).
Proof. intros Hb. unfold in_try. rewrite Hb. reflexivity. Qed.

Lemma cleanup_effect_stat (path : string) (e : E) :
  In (CFS "stat" path) (snd (cleanup_effect path e)).
Proof.
  unfold cleanup_effect.
  destruct (engine_FS "stat" path e) as [e1 [[|] | err]]; cbn; auto.
Qed.

Lemma finally_effect_stats (job : Job) (e : E) :
  In (CFS "stat" (inputName job)) (snd (finally_effect job e)) /\
  In (CFS "stat" (outputName job)) (snd (finally_effect job e)).
Proof.
  unfold finally_effect.
  pose proof (cleanup_effect_stat (inputName job) e) as H1.
  destruct (cleanup_effect (inputName job) e) as [e1 l1].
  pose proof (cleanup_effect_stat (outputName job) e1) as H2.
  destruct (cleanup_effect (outputName job) e1) as [e2 l2].
  cbn in *. split; apply in_or_app; auto.
Qed.

Section Lawful.
Variable present : E -> string -> bool.
Hypothesis lawful : LawfulFS present.

Lemma lawful_cleanup_effect (path : string) (e : E) :
  present (fst (cleanup_effect path e)) path = false /\
  forall q, present e q = false -> present (fst (cleanup_effect path e)) q = false.
Proof.
  unfold cleanup_effect.
  pose proof (stat_truthy present lawful path e) as Ht.
  pose proof (fun q => stat_creates_nothing present lawful path q e) as Hc.
  destruct (engine_FS "stat" path e) as [e1 r]. cbn in Ht, Hc.
  destruct r as [[|] | err]; cbn.
  - split; [apply (unlink_removes present lawful) |].
    intros q Hq. apply (unlink_creates_nothing present lawful), Hc, Hq.
  - split; [apply Ht; discriminate | exact Hc].
  - split; [apply Ht; discriminate | exact Hc].
Qed.

Lemma lawful_finally_effect (job : Job) (e : E) :
  present (fst (finally_effect job e)) (inputName job) = false /\
  present (fst (finally_effect job e)) (outputName job) = false.
Proof.
  unfold finally_effect.
  destruct (lawful_cleanup_effect (inputName job) e) as [H1 _].
  destruct (cleanup_effect (inputName job) e) as [e1 l1]. cbn in H1.
  destruct (lawful_cleanup_effect (outputName job) e1) as [H2 H3].
  destruct (cleanup_effect (outputName job) e1) as [e2 l2]. cbn in *.
  split; [apply H3, H1 | exact H2].
Qed.
End Lawful.

(** *** What each resumption of [compress] does *)

Lemma resume_fetch_fulfilled (job : Job) (data : bytes) (w : World E) (e : E) :
  ffmpeg (self w) = Some e ->
  compress_resume clock (AwaitFetch job (Ok data)) w =
  (Ok (inr (AwaitWriteFile job (snd (engine_writeFile (inputName job) data e)))),
   after_calls w (fst (engine_writeFile (inputName job) data e))
     [CWriteFile (inputName job) data]).
Proof.
  destruct_world w. intros ->. unfold_wrapper. cbn.
  destruct (engine_writeFile (inputName job) data e) as [e1 p]. reflexivity.
Qed.

Lemma resume_write_fulfilled (job : Job) (w : World E) (e : E) :
  ffmpeg (self w) = Some e ->
  compress_resume clock (AwaitWriteFile job (Ok tt)) w =
  (Ok (inr (AwaitExec job (snd (engine_exec (args job) e)))),
   after_calls (running w) (fst (engine_exec (args job) e)) [CExec (args job)]).
Proof.
  destruct_world w. intros ->. unfold_wrapper. cbn.
  destruct (engine_exec (args job) e) as [e1 p]. reflexivity.
Qed.

Lemma resume_exec_fulfilled (job : Job) (w : World E) (e : E) :
  ffmpeg (self w) = Some e ->
  compress_resume clock (AwaitExec job (Ok tt)) w =
  (Ok (inr (AwaitReadFile job (snd (engine_readFile (outputName job) e)))),
   after_calls w (fst (engine_readFile (outputName job) e))
     [CReadFile (outputName job)]).
Proof.
  destruct_world w. intros ->. unfold_wrapper. cbn.
  destruct (engine_readFile (outputName job) e) as [e1 p]. reflexivity.
Qed.

Lemma resume_exec_rejected (job : Job) (err : JsError) (w : World E) :
  compress_resume clock (AwaitExec job (Throw err)) w =
  (Throw err, snd (finally_block job w)).
Proof.
  cbn [compress_resume]. apply in_try_exit; [reflexivity | discriminate].
Qed.

Lemma resume_read_settles (job : Job) (p : Promise bytes) (w : World E) :
  compress_resume clock (AwaitReadFile job p) w =
  (match p with
   | Ok data => Ok (inl (blob_of job data))
   | Throw err => Throw err
   end, snd (finally_block job w)).
Proof.
  cbn [compress_resume].
  destruct p as [data | err]; apply in_try_exit;
    try reflexivity; try discriminate; intros pc H; discriminate.
Qed.

Lemma finally_block_releases (job : Job) (w : World E) (e : E) :
  ffmpeg (self w) = Some e ->
  let w' := snd (finally_block job w) in
  isRunningJob (self w') = false /\
  activeJobHooks (self w') = no_hooks /\
  exists e' l,
    ffmpeg (self w') = Some e' /\
    trace w' = trace w ++ l /\
    In (CFS "stat" (inputName job)) l /\
    In (CFS "stat" (outputName job)) l /\
    forall present : E -> string -> bool, LawfulFS present ->
      present e' (inputName job) = false /\ present e' (outputName job) = false.
Proof.
  intros He. rewrite (finally_block_run job w e He). cbn [snd].
  split; [reflexivity |]. split; [reflexivity |].
  exists (fst (finally_effect job e)), (snd (finally_effect job e)).
  split; [reflexivity |]. split; [reflexivity |].
  destruct (finally_effect_stats job e) as [H1 H2].
  split; [exact H1 |]. split; [exact H2 |].
  intros present Hl. apply lawful_finally_effect, Hl.
Qed.

(** C1, as amended.  Once the input of a [compress] call has been written
    (the call is at, or past, the assignment [this.isRunningJob = true]),
    every resumption either suspends the same job again or settles the
    call; and when it settles, on success or failure alike, the busy
    flag is false, the active callbacks are none, [FS('stat', ...)] was
    called for the input and for the output name, and for an engine whose
    [FS] is a lawful file system both names are absent. *)
Theorem C1_started_job_releases_instance
    (pc : CompressPc) (job : Job) (w : World E) (e : E) :
  started_job pc = Some job ->
  ffmpeg (self w) = Some e ->
  match as_task (compress_resume clock pc) w with
  | (Suspended pc', _) => started_job pc' = Some job
  | (Settled _, w') =>
      isRunningJob (self w') = false /\
      activeJobHooks (self w') = no_hooks /\
      exists e' l,
        ffmpeg (self w') = Some e' /\
        trace w' = trace w ++ l /\
        In (CFS "stat" (inputName job)) l /\
        In (CFS "stat" (outputName job)) l /\
        forall present : E -> string -> bool, LawfulFS present ->
          present e' (inputName job) = false /\ present e' (outputName job) = false
  end.
Proof.
  intros Hpc He.
  pose proof (finally_block_releases job w e He) as Hfin.
  destruct pc as [f o p | j p | j [[] | err] | j [[] | err] | j p];
    cbn in Hpc; try discriminate; inversion Hpc; subst j; clear Hpc;
    unfold as_task.
  - rewrite (resume_write_fulfilled job w e He). reflexivity.
  - rewrite (resume_exec_fulfilled job w e He). reflexivity.
  - rewrite resume_exec_rejected. exact Hfin.
  - rewrite resume_read_settles. destruct p as [data | err]; exact Hfin.
Qed.

Ltac destruct_matches :=
  repeat match goal with
         | |- context [match ?x with _ => _ end] =>
             match type of x with
             | sumbool _ _ => fail 1
             | _ => destruct x eqn:?; cbn
             end
         end.

Lemma resume_init_rejected (f : File) (o : CompressionOptions) (err : JsError) (w : World E) :
  compress_resume clock (AwaitInit f o (Throw err)) w = (Throw err, w).
Proof. reflexivity. Qed.

Lemma resume_fetch_rejected (job : Job) (err : JsError) (w : World E) :
  compress_resume clock (AwaitFetch job (Throw err)) w = (Throw err, w).
Proof. reflexivity. Qed.

Lemma resume_write_rejected (job : Job) (err : JsError) (w : World E) :
  compress_resume clock (AwaitWriteFile job (Throw err)) w = (Throw err, w).
Proof. reflexivity. Qed.

(** Argument building is the only step between [init] and the fetch that
    can fail on an instance with an engine: its error, if any, is the
    outcome; the trace and the engine are as before. *)
Lemma resume_init_invalid_options
    (f : File) (o : CompressionOptions) (err : JsError) (w : World E) :
  (forall i out, buildArgs i out o = Throw err) ->
  exists w', compress_resume clock (AwaitInit f o (Ok tt)) w = (Throw err, w') /\
             trace w' = trace w /\ ffmpeg (self w') = ffmpeg (self w) /\
             isRunningJob (self w') = isRunningJob (self w).
Proof.
  intros Hb. destruct_world w. unfold_wrapper. cbn -[buildArgs guessExtension String_of_number].
  destruct (truthy_string (fileName (default no_output (output o))));
    cbn -[buildArgs guessExtension String_of_number];
    rewrite Hb; eexists; repeat split; reflexivity.
Qed.

(** With accepted options and an engine, the call goes on to fetch the
    file. *)
Lemma resume_init_fetches (f : File) (o : CompressionOptions) (w : World E) (e : E) :
  ffmpeg (self w) = Some e ->
  (forall i out, exists l, buildArgs i out o = Ok l) ->
  exists job w',
    compress_resume clock (AwaitInit f o (Ok tt)) w
    = (Ok (inr (AwaitFetch job (fileFetcher (config (self w)) f))), w') /\
    buildArgs (inputName job) (outputName job) o = Ok (args job) /\
    trace w' = trace w ++ [CFetch f] /\
    ffmpeg (self w') = Some e /\
    isRunningJob (self w') = isRunningJob (self w).
Proof.
  intros He Hb. destruct_world w. subst eng. unfold_wrapper.
  cbn -[buildArgs guessExtension String_of_number].
  destruct (truthy_string (fileName (default no_output (output o))));
    cbn -[buildArgs guessExtension String_of_number];
    match goal with
    | |- context [buildArgs ?i ?out o] =>
        destruct (Hb i out) as [l Hl]; rewrite Hl
    end;
    cbn; eexists; eexists; (split; [reflexivity |]); cbn; auto.
Qed.

(** Each resumption leaves fewer [await]s ahead. *)
Lemma resume_progress (pc pc' : CompressPc) (w w' : World E) :
  compress_resume clock pc w = (Ok (inr pc'), w') ->
  awaits_left pc' < awaits_left pc.
Proof.
  destruct pc as [f o [[] | err] | job [data | err] | job [[] | err]
                 | job [[] | err] | job [data | err]].
  - destruct_world w. unfold_wrapper. cbn -[buildArgs guessExtension String_of_number].
    destruct (truthy_string (fileName (default no_output (output o))));
      cbn -[buildArgs guessExtension String_of_number];
      match goal with
      | |- context [buildArgs ?i ?out o] => destruct (buildArgs i out o)
      end; cbn; try discriminate;
      destruct eng; cbn; intros H; inversion H; cbn; lia.
  - discriminate.
  - destruct (ffmpeg (self w)) as [e |] eqn:He.
    + rewrite (resume_fetch_fulfilled job data w e He).
      intros H; inversion H; cbn; lia.
    + destruct_world w. subst eng. discriminate.
  - discriminate.
  - destruct (ffmpeg (self w)) as [e |] eqn:He.
    + rewrite (resume_write_fulfilled job w e He).
      intros H; inversion H; cbn; lia.
    + destruct_world w. subst eng. discriminate.
  - discriminate.
  - destruct (ffmpeg (self w)) as [e |] eqn:He.
    + rewrite (resume_exec_fulfilled job w e He).
      intros H; inversion H; cbn; lia.
    + destruct_world w. subst eng. discriminate.
  - rewrite resume_exec_rejected. discriminate.
  - rewrite resume_read_settles. discriminate.
  - rewrite resume_read_settles. discriminate.
Qed.

Lemma settle_settles (n : nat) (t : Task Blob CompressPc) (w : World E) :
  match t with
  | Settled _ => True
  | Suspended pc => awaits_left pc <= n
  end ->
  exists r, fst (settle clock n t w) = Settled r.
Proof.
  revert t w. induction n as [| n IH]; intros [r | pc] w Hn.
  - exists r. reflexivity.
  - destruct pc; cbn in Hn; lia.
  - exists r. reflexivity.
  - cbn [settle]. unfold as_task.
    destruct (compress_resume clock pc w) as [[[blob | pc'] | err] w'] eqn:Hr.
    + apply IH. exact I.
    + apply IH. apply resume_progress in Hr. lia.
    + apply IH. exact I.
Qed.

(** A [compress] call always settles: it returns or it rejects. *)
Lemma compress_await_settles (file : FileArg) (options : option CompressionOptions)
    (w : World E) :
  exists r, fst (compress_await clock file options w) = Settled r.
Proof.
  unfold compress_await.
  destruct (as_task (compress_call file options) w) as [t w'] eqn:Hc.
  apply settle_settles. destruct t as [r | pc]; [exact I |].
  destruct pc; cbn; try lia.
Qed.


(** The synchronous part of a [compress] call on an idle instance: the
    call suspends on [this.init()], which makes the calls of one engine
    creation when there is neither an engine nor a pending load, and no
    call otherwise. *)
Lemma compress_call_idle (f : File) (o : CompressionOptions) (w : World E) :
  truthy_string (mode o) = true ->
  isRunningJob (self w) = false ->
  exists p w1 l,
    as_task (compress_call (AFile f) (Some o)) w = (Suspended (AwaitInit f o p), w1) /\
    trace w1 = trace w ++ l /\
    forallb is_init_call l = true /\
    (ffmpeg (self w) <> None -> p = Ok tt /\ w1 = w) /\
    isRunningJob (self w1) = false /\
    activeJobHooks (self w1) = activeJobHooks (self w).
Proof.
  intros Hm Hb. destruct_world w. subst busy. unfold_wrapper. rewrite Hm. cbn.
  destruct eng as [e |]; cbn.
  - exists (Ok tt). eexists. exists []. rewrite app_nil_r. repeat split; reflexivity.
  - destruct lp as [p |]; cbn.
    + exists p. eexists. exists []. rewrite app_nil_r.
      repeat split; try reflexivity; congruence.
    + destruct (engine_load _) as [e1 p] eqn:Hl. cbn.
      exists p. eexists. eexists.
      split; [reflexivity |]. cbn. rewrite <- !app_assoc. cbn.
      split; [reflexivity |]. repeat split; try reflexivity; congruence.
Qed.


Lemma buildArgs_mode_only (i out : string) (o o' : CompressionOptions) :
  mode o = Some CompressionMode.COPY \/ mode o = Some CompressionMode.COPY_MUTE ->
  mode o' = mode o ->
  buildArgs i out o' = buildArgs i out o.
Proof.
  intros [Hm | Hm] Hm'; unfold buildArgs; rewrite Hm', Hm; reflexivity.
Qed.

(** *** The engine is created at most once *)

Lemma init_calls_app (l1 l2 : list Call) :
  init_calls (l1 ++ l2) = init_calls l1 ++ init_calls l2.
Proof. apply List.filter_app. Qed.

Lemma cleanup_effect_no_init_call (path : string) (e : E) :
  init_calls (snd (cleanup_effect path e)) = [].
Proof.
  unfold cleanup_effect.
  destruct (engine_FS "stat" path e) as [e1 [[|] | err]]; reflexivity.
Qed.

Lemma finally_effect_no_init_call (job : Job) (e : E) :
  init_calls (snd (finally_effect job e)) = [].
Proof.
  unfold finally_effect.
  pose proof (cleanup_effect_no_init_call (inputName job) e) as H1.
  destruct (cleanup_effect (inputName job) e) as [e1 l1].
  pose proof (cleanup_effect_no_init_call (outputName job) e1) as H2.
  destruct (cleanup_effect (outputName job) e1) as [e2 l2].
  cbn [fst snd] in *. rewrite init_calls_app, H1, H2. reflexivity.
Qed.

Lemma keeps_engine_refl (w : World E) : keeps_engine w w.
Proof. unfold keeps_engine. auto. Qed.

Lemma keeps_engine_trans (w1 w2 w3 : World E) :
  keeps_engine w1 w2 -> keeps_engine w2 w3 -> keeps_engine w1 w3.
Proof.
  unfold keeps_engine. intros (Hc1 & He1 & Ho1) (Hc2 & He2 & Ho2).
  split; [congruence |]. split; auto.
Qed.

Lemma keeps_engine_after_calls (w : World E) (e e' : E) (l : list Call) :
  ffmpeg (self w) = Some e -> init_calls l = [] -> keeps_engine w (after_calls w e' l).
Proof.
  intros He Hl. unfold keeps_engine, created_once. cbn. rewrite He.
  split; [reflexivity |]. split; [discriminate |].
  rewrite init_calls_app, Hl, app_nil_r. auto.
Qed.

Lemma keeps_engine_released (w : World E) : keeps_engine w (released w).
Proof. unfold keeps_engine, created_once. cbn. auto. Qed.

Lemma keeps_engine_running (w : World E) : keeps_engine w (running w).
Proof. unfold keeps_engine, created_once. cbn. auto. Qed.

Lemma finally_block_keeps_engine (job : Job) (w : World E) :
  keeps_engine w (snd (finally_block job w)).
Proof.
  destruct (ffmpeg (self w)) as [e |] eqn:He.
  - rewrite (finally_block_run job w e He). cbn [snd].
    eapply keeps_engine_trans; [apply keeps_engine_released |].
    eapply keeps_engine_after_calls; [exact He | apply finally_effect_no_init_call].
  - rewrite (finally_block_no_engine job w He). apply keeps_engine_released.
Qed.

Lemma init_call_keeps_engine (w : World E) : keeps_engine w (snd (init_call w)).
Proof.
  destruct_world w. unfold keeps_engine, created_once. unfold_wrapper. cbn.
  destruct eng as [e |]; cbn.
  - auto.
  - destruct lp as [p |]; cbn.
    + auto.
    + destruct (engine_load _) as [e1 p]. cbn.
      split; [reflexivity |]. split; [discriminate |].
      intros [_ Ht]. unfold init_calls in *.
      rewrite <- !app_assoc, List.filter_app, Ht. reflexivity.
Qed.

Lemma init_resume_keeps_world (pc : InitPc) (w : World E) :
  snd (init_resume pc w) = w.
Proof. destruct pc as [[[] | err]]; reflexivity. Qed.

Lemma compress_call_keeps_engine (file : FileArg) (options : option CompressionOptions)
    (w : World E) :
  keeps_engine w (snd (compress_call file options w)).
Proof.
  pose proof (init_call_keeps_engine w) as Hi.
  unfold compress_call, init_promise, bind, this, ret, throw.
  destruct file as [f |]; cbn -[init_call]; [| apply keeps_engine_refl].
  destruct options as [o |]; cbn -[init_call]; [| apply keeps_engine_refl].
  destruct (truthy_string (mode o)); cbn -[init_call]; [| apply keeps_engine_refl].
  destruct (isRunningJob (self w)); cbn -[init_call]; [apply keeps_engine_refl |].
  destruct (init_call w) as [[[[] | [p]] | err] w']; exact Hi.
Qed.

Lemma compress_resume_keeps_engine (pc : CompressPc) (w : World E) :
  keeps_engine w (snd (compress_resume clock pc w)).
Proof.
  destruct pc as [f o [[] | err] | job [data | err] | job [[] | err]
                 | job [[] | err] | job p].
  - destruct_world w. unfold keeps_engine, created_once. unfold_wrapper.
    cbn -[buildArgs guessExtension String_of_number].
    destruct (truthy_string (fileName (default no_output (output o))));
      cbn -[buildArgs guessExtension String_of_number];
      match goal with
      | |- context [buildArgs ?i ?out o] => destruct (buildArgs i out o)
      end; cbn; destruct eng; cbn;
      rewrite ?init_calls_app, ?app_nil_r; auto.
  - apply keeps_engine_refl.
  - destruct (ffmpeg (self w)) as [e |] eqn:He.
    + rewrite (resume_fetch_fulfilled job data w e He). cbn [snd].
      eapply keeps_engine_after_calls; [exact He | reflexivity].
    + destruct_world w. subst eng. apply keeps_engine_refl.
  - apply keeps_engine_refl.
  - destruct (ffmpeg (self w)) as [e |] eqn:He.
    + rewrite (resume_write_fulfilled job w e He). cbn [snd].
      eapply keeps_engine_trans; [apply keeps_engine_running |].
      eapply keeps_engine_after_calls; [exact He | reflexivity].
    + destruct_world w. subst eng. unfold keeps_engine, created_once. cbn. auto.
  - apply keeps_engine_refl.
  - destruct (ffmpeg (self w)) as [e |] eqn:He.
    + rewrite (resume_exec_fulfilled job w e He). cbn [snd].
      eapply keeps_engine_after_calls; [exact He | reflexivity].
    + destruct_world w. subst eng. unfold keeps_engine, created_once. cbn. auto.
  - rewrite resume_exec_rejected. apply finally_block_keeps_engine.
  - rewrite resume_read_settles. apply finally_block_keeps_engine.
Qed.

Lemma as_task_world {A Pc} (m : M (A + Pc)) (w : World E) :
  snd (as_task m w) = snd (m w).
Proof. unfold as_task. destruct (m w) as [[[a | pc] | err] w']; reflexivity. Qed.

Lemma step_keeps_engine (sys : System) (ev : Event) :
  keeps_engine (world sys) (world (step clock sys ev)).
Proof.
  destruct ev as [| file options | i | i]; cbn [step].
  - pose proof (init_call_keeps_engine (world sys)) as H.
    rewrite <- as_task_world in H.
    destruct (as_task init_call (world sys)) as [t w]. exact H.
  - pose proof (compress_call_keeps_engine file options (world sys)) as H.
    rewrite <- as_task_world in H.
    destruct (as_task (compress_call file options) (world sys)) as [t w]. exact H.
  - destruct (inits sys !! i) as [[r | pc] |]; try apply keeps_engine_refl.
    pose proof (init_resume_keeps_world pc (world sys)) as H.
    rewrite <- as_task_world in H.
    destruct (as_task (init_resume pc) (world sys)) as [t w]. cbn in *. subst w.
    apply keeps_engine_refl.
  - destruct (jobs sys !! i) as [[r | pc] |]; try apply keeps_engine_refl.
    pose proof (compress_resume_keeps_engine pc (world sys)) as H.
    rewrite <- as_task_world in H.
    destruct (as_task (compress_resume clock pc) (world sys)) as [t w]. exact H.
Qed.

Lemma run_keeps_engine (evs : list Event) (sys : System) :
  keeps_engine (world sys) (world (run clock sys evs)).
Proof.
  revert sys. induction evs as [| ev evs IH]; intros sys; cbn.
  - apply keeps_engine_refl.
  - eapply keeps_engine_trans; [apply step_keeps_engine | apply IH].
Qed.

Lemma load_calls_of_init_calls (l : list Call) :
  List.filter is_load_call l = List.filter is_load_call (init_calls l).
Proof.
  induction l as [| c l IH]; [reflexivity |].
  destruct c; cbn; rewrite ?IH; reflexivity.
Qed.

Lemma factory_calls_of_init_calls (l : list Call) :
  List.filter is_factory_call l = List.filter is_factory_call (init_calls l).
Proof.
  induction l as [| c l IH]; [reflexivity |].
  destruct c; cbn; rewrite ?IH; reflexivity.
Qed.

(** Whatever calls are made on an instance and however they are
    scheduled, the factory and [load] are each called at most once. *)
Lemma engine_created_at_most_once (cfg : VideoCompressorConfig E) (evs : list Event) :
  let w := world (run clock (new_System cfg) evs) in
  length (List.filter is_factory_call (trace w)) <= 1 /\
  length (List.filter is_load_call (trace w)) <= 1.
Proof.
  cbn zeta.
  destruct (run_keeps_engine evs (new_System cfg)) as (_ & _ & Ho).
  assert (H0 : created_once (world (new_System cfg))).
  { unfold created_once. cbn. auto. }
  specialize (Ho H0). unfold created_once in Ho.
  rewrite load_calls_of_init_calls, factory_calls_of_init_calls.
  destruct (ffmpeg (self (world (run clock (new_System cfg) evs)))).
  - rewrite Ho. cbn. lia.
  - destruct Ho as [_ ->]. cbn. lia.
Qed.

(** *** Initialization *)



(** The busy guard: while the flag is set, a call with a file and a mode
    rejects at once and leaves the world as it is. *)
Lemma busy_guard (f : File) (o : CompressionOptions) (w : World E) :
  truthy_string (mode o) = true ->
  isRunningJob (self w) = true ->
  as_task (compress_call (AFile f) (Some o)) w
  = (Settled (Throw (Error "Another compression job is already running on this instance.")),
     w).
Proof.
  intros Hm Hb. destruct_world w. subst busy. unfold_wrapper. rewrite Hm. reflexivity.
Qed.


(** The flag is not yet set when a second call arrives right after the
    first: on every engine the second call passes the guard and suspends
    on an initialization that is already fulfilled. *)
Lemma second_compress_passes_guard (cfg : VideoCompressorConfig E) (f : File)
    (o1 o2 : CompressionOptions) :
  truthy_string (mode o1) = true ->
  truthy_string (mode o2) = true ->
  jobs (run clock (new_System cfg)
          [CallCompress (AFile f) (Some o1); CallCompress (AFile f) (Some o2)])
  = [Suspended (AwaitInit f o1 (snd (created_engine cfg)));
     Suspended (AwaitInit f o2 (Ok tt))].
Proof.
  intros H1 H2. unfold created_engine, run. cbn [fold_left step].
  unfold new_System, new_World, new_VideoCompressor. unfold_wrapper. cbn.
  rewrite H1. cbn. destruct (engine_load _) as [e1 p]. cbn.
  rewrite H2. reflexivity.
Qed.

(** C6, the code at two overlapping [init()] calls on a fresh instance,
    for every engine and configuration: one [load] is started, the first
    call is suspended on its promise, and the second call has already
    resolved; it does not await the outstanding load, whatever that
    load settles to. *)
Theorem C6_second_init_resolves_without_load (cfg : VideoCompressorConfig E) :
  let sys := run clock (new_System cfg) [CallInit; CallInit] in
  inits sys = [Suspended (AwaitLoad (snd (created_engine cfg))); Settled (Ok tt)] /\
  loadingPromise (self (world sys)) = Some (snd (created_engine cfg)) /\
  List.filter is_load_call (trace (world sys)) = [CLoad].
Proof.
  unfold created_engine, run. cbn [fold_left step].
  unfold new_System, new_World, new_VideoCompressor. unfold_wrapper. cbn.
  destruct (engine_load _) as [e1 p]. cbn. repeat split; reflexivity.
Qed.



End WrapperProperties.

(** * Closed examples on the in-memory engine *)

Lemma MemEngine_get_remove (name : string) (fs : list (string * bytes)) :
  MemEngine.get name (MemEngine.remove name fs) = None.
Proof.
  induction fs as [| [k v] fs IH]; [reflexivity |]. cbn.
  destruct (String.eqb_spec k name) as [-> | Hne]; [exact IH |].
  cbn. destruct (String.eqb_spec k name); [contradiction | exact IH].
Qed.

Lemma MemEngine_get_remove_absent (name q : string) (fs : list (string * bytes)) :
  MemEngine.get q fs = None -> MemEngine.get q (MemEngine.remove name fs) = None.
Proof.
  induction fs as [| [k v] fs IH]; [reflexivity |]. cbn.
  destruct (String.eqb_spec k q) as [-> | Hq]; [discriminate |].
  intros H. destruct (k =? name); [apply IH, H |].
  cbn. destruct (String.eqb_spec k q); [contradiction | apply IH, H].
Qed.

(** The in-memory engine's [FS] is a lawful file system. *)
Lemma MemEngine_lawful : LawfulFS (ops := MemEngine.engine) MemEngine.has.
Proof.
  split; cbn; unfold MemEngine.FS, MemEngine.has; cbn.
  - intros path e. destruct (MemEngine.get path (MemEngine.files e)) eqn:Hg; cbn.
    + intros H. exfalso. apply H. reflexivity.
    + intros _. rewrite Hg. reflexivity.
  - intros path q e Hq.
    destruct (MemEngine.get path (MemEngine.files e)) eqn:Hg; cbn; exact Hq.
  - intros path e. destruct (MemEngine.get path (MemEngine.files e)) eqn:Hg; cbn.
    + rewrite MemEngine_get_remove. reflexivity.
    + rewrite Hg. reflexivity.
  - intros path q e Hq.
    destruct (MemEngine.get path (MemEngine.files e)) eqn:Hg; cbn; [| exact Hq].
    destruct (MemEngine.get q (MemEngine.files e)) eqn:Hgq; [discriminate |].
    rewrite (MemEngine_get_remove_absent path q _ Hgq). reflexivity.
Qed.

(** The test of the repository: a copy of [sample.mp4] on a fresh instance
    runs to a blob, with the expected [exec] arguments, and leaves no file
    in the engine. *)
Lemma copy_runs_to_blob :
  let sys := example_run example_cfg
               [CallCompress (AFile sample_file) (Some (options_of_mode "copy"));
                ResumeCompress 0; ResumeCompress 0; ResumeCompress 0;
                ResumeCompress 0; ResumeCompress 0] in
  jobs sys = [Settled (Ok {| blob_data := [Byte.x00]; blob_type := "video/mp4" |})] /\
  execs_of sys = [CExec ["-i"; "input-1700000000000.mp4"; "-c:v"; "copy"; "-c:a"; "copy";
                         "-movflags"; "+faststart"; "-y"; "output-1700000000001.mp4"]] /\
  files_of sys = Some [] /\
  isRunningJob (self (world sys)) = false.
Proof. vm_compute. repeat split; reflexivity. Qed.

(** The job of the copy example, resumed at its last [await]: the instance
    is released and neither file is left in the engine. *)
Lemma C1_witness :
  let sys := example_run example_cfg
               [CallCompress (AFile sample_file) (Some (options_of_mode "copy"));
                ResumeCompress 0; ResumeCompress 0; ResumeCompress 0; ResumeCompress 0] in
  let job := {| inputName := "input-1700000000000.mp4";
                outputName := "output-1700000000001.mp4";
                args := ["-i"; "input-1700000000000.mp4"; "-c:v"; "copy"; "-c:a"; "copy";
                         "-movflags"; "+faststart"; "-y"; "output-1700000000001.mp4"];
                job_mimeType := "video/mp4" |} in
  jobs sys = [Suspended (AwaitReadFile job (Ok [Byte.x00]))] /\
  let w' := snd (as_task (compress_resume MemEngine.clock (AwaitReadFile job (Ok [Byte.x00])))
                   (world sys)) in
  isRunningJob (self w') = false /\
  activeJobHooks (self w') = no_hooks /\
  option_map (fun e => MemEngine.has e (inputName job) || MemEngine.has e (outputName job))
    (ffmpeg (self w')) = Some false.
Proof.
  intros sys job. split; [reflexivity |].
  assert (He : exists e, ffmpeg (self (world sys)) = Some e)
    by (vm_compute; eexists; reflexivity).
  destruct He as [e He].
  pose proof (C1_started_job_releases_instance MemEngine.clock
                (AwaitReadFile job (Ok [Byte.x00])) job (world sys) e eq_refl He) as H.
  cbv zeta.
  set (res := as_task (compress_resume MemEngine.clock (AwaitReadFile job (Ok [Byte.x00])))
                (world sys)) in *.
  assert (Hres : exists r w', res = (Settled r, w'))
    by (vm_compute; eexists; eexists; reflexivity).
  destruct Hres as (r & w' & Hres). rewrite Hres in H |- *.
  destruct H as (H1 & H2 & e' & l & H3 & _ & _ & _ & H4).
  cbn [snd]. split; [exact H1 |]. split; [exact H2 |].
  rewrite H3. cbn [option_map].
  destruct (H4 MemEngine.has MemEngine_lawful) as [-> ->]. reflexivity.
Defined.

(** C1 as stated fails on two exit paths that come before the [try]
    block.  A call rejected by the busy guard passed the file and mode
    validation, and the busy flag is still set when it has settled.  A
    re-encode call rejected by argument building leaves the callbacks it
    installed, and attempts no deletion. *)
Lemma C1_counterexample :
  (let sys := example_run example_cfg
                [CallCompress (AFile sample_file) (Some (options_of_mode "copy"));
                 ResumeCompress 0; ResumeCompress 0; ResumeCompress 0;
                 CallCompress (AFile sample_file) (Some (options_of_mode "copy-mute"))] in
   jobs sys !! 1
   = Some (Settled (Throw (Error "Another compression job is already running on this instance.")))
   /\ isRunningJob (self (world sys)) = true) /\
  (let sys := example_run example_cfg
                [CallCompress (AFile sample_file) (Some (conflicting_options "reencode"));
                 ResumeCompress 0] in
   jobs sys
   = [Settled (Throw (Error "Provide either crf or bitrate for video, not both."))]
   /\ activeJobHooks (self (world sys))
      = {| hook_onLog := None; hook_onProgress := Some (HandlerId 1) |}
   /\ List.filter (fun c => match c with CFS _ _ => true | _ => false end)
        (trace (world sys)) = []).
Proof. vm_compute. repeat split; reflexivity. Qed.

(** C2, the code at two overlapping calls on a fresh instance.  The second
    [compress] call is made while the first is suspended; it is not
    rejected; both calls run [exec], the second while the first job's
    [exec] is still outstanding, and both resolve with a blob. *)
Theorem C2_overlapping_calls_both_run :
  let first := CallCompress (AFile sample_file) (Some (options_of_mode "copy")) in
  let second := CallCompress (AFile sample_file) (Some (options_of_mode "copy-mute")) in
  let called := example_run example_cfg [first; second] in
  let executing := example_run example_cfg
                     [first; second; ResumeCompress 0; ResumeCompress 1;
                      ResumeCompress 0; ResumeCompress 1; ResumeCompress 0; ResumeCompress 1] in
  let finished := run MemEngine.clock executing
                    [ResumeCompress 0; ResumeCompress 1; ResumeCompress 0; ResumeCompress 1] in
  jobs called
  = [Suspended (AwaitInit sample_file (options_of_mode "copy") (Ok tt));
     Suspended (AwaitInit sample_file (options_of_mode "copy-mute") (Ok tt))] /\
  (exists job1 job2,
     jobs executing = [Suspended (AwaitExec job1 (Ok tt)); Suspended (AwaitExec job2 (Ok tt))]) /\
  execs_of executing
  = [CExec ["-i"; "input-1700000000000.mp4"; "-c:v"; "copy"; "-c:a"; "copy";
            "-movflags"; "+faststart"; "-y"; "output-1700000000001.mp4"];
     CExec ["-i"; "input-1700000000002.mp4"; "-c:v"; "copy"; "-an";
            "-movflags"; "+faststart"; "-y"; "output-1700000000003.mp4"]] /\
  jobs finished
  = [Settled (Ok {| blob_data := [Byte.x00]; blob_type := "video/mp4" |});
     Settled (Ok {| blob_data := [Byte.x00]; blob_type := "video/mp4" |})].
Proof.
  vm_compute. split; [reflexivity |]. split; [| split; reflexivity].
  eexists. eexists. reflexivity.
Qed.



(** An [exec] that fails on an engine whose files cannot be deleted (the
    output was never written, so [FS('stat')] throws): the call rejects
    with the error of [exec]. *)
Lemma exec_error_survives_cleanup :
  let sys := example_run (MemEngine.cfg None (Some (Error "exec failed")) None)
               [CallCompress (AFile sample_file) (Some (options_of_mode "copy"));
                ResumeCompress 0; ResumeCompress 0; ResumeCompress 0; ResumeCompress 0] in
  jobs sys = [Settled (Throw (Error "exec failed"))] /\
  isRunningJob (self (world sys)) = false /\
  files_of sys = Some [].
Proof. vm_compute. repeat split; reflexivity. Qed.

(** A copy that supplies both [crf] and [bitrate] runs to a blob. *)
Lemma copy_with_conflicting_video_options_runs :
  let result := compress_await MemEngine.clock (AFile sample_file)
                  (Some (conflicting_options "copy")) (new_World example_cfg) in
  fst result = Settled (Ok {| blob_data := [Byte.x00]; blob_type := "video/mp4" |}) /\
  List.filter is_exec_call (trace (snd result))
  = [CExec ["-i"; "input-1700000000000.mp4"; "-c:v"; "copy"; "-c:a"; "copy";
            "-movflags"; "+faststart"; "-y"; "output-1700000000001.mp4"]].
Proof. vm_compute. split; reflexivity. Qed.


(** The whole story of a failed load on the in-memory engine: the first
    [init()] rejects, an [init()] made meanwhile has resolved, and a later
    [compress] gets as far as [writeFile], which the engine refuses because
    it was never loaded. *)
Lemma failed_load_then_compress :
  let sys := example_run failing_load_cfg
               [CallInit; CallInit; ResumeInit 0;
                CallCompress (AFile sample_file) (Some (options_of_mode "copy"));
                ResumeCompress 0; ResumeCompress 0; ResumeCompress 0] in
  inits sys = [Settled (Throw (Error "load failed")); Settled (Ok tt)] /\
  jobs sys = [Settled (Throw (Error "ffmpeg is not loaded"))] /\
  List.filter is_load_call (trace (world sys)) = [CLoad] /\
  option_map MemEngine.loaded (ffmpeg (self (world sys))) = Some false.
Proof. vm_compute. repeat split; reflexivity. Qed.

(** * Further properties of the pure helpers *)

Lemma split_nonempty (c : ascii) (s : string) : split c s <> [].
Proof.
  destruct s as [| a s]; cbn; [discriminate |].
  destruct (Ascii.eqb a c); [discriminate |].
  destruct (split c s); discriminate.
Qed.

Lemma split_without_separator (c : ascii) (s : string) :
  includes c s = false -> split c s = [s].
Proof.
  induction s as [| a s IH]; cbn; [reflexivity |].
  destruct (Ascii.eqb a c); [discriminate |].
  intros H. rewrite (IH H). reflexivity.
Qed.

Lemma append_nil_l (s : string) : EmptyString +:+ s = s.
Proof. reflexivity. Qed.

Lemma append_cons (a : ascii) (s t : string) : String a s +:+ t = String a (s +:+ t).
Proof. reflexivity. Qed.

Lemma split_at_separator (c : ascii) (stem rest : string) :
  split c (stem +:+ String c rest) = removelast (split c stem)
                                      ++ match split c rest with
                                         | [] => []
                                         | h :: t => (List.last (split c stem) EmptyString) :: h :: t
                                         end.
Proof.
  induction stem as [| a stem IH];
    rewrite ?append_nil_l, ?append_cons; cbn -[Ascii.eqb String.append].
  - rewrite Ascii.eqb_refl. destruct (split c rest) eqn:Hr; [| reflexivity].
    exfalso. exact (split_nonempty c rest Hr).
  - destruct (Ascii.eqb a c) eqn:Ha.
    + rewrite IH. pose proof (split_nonempty c stem) as Hne.
      destruct (split c stem) as [| h t]; [contradiction |]. reflexivity.
    + rewrite IH. pose proof (split_nonempty c stem) as Hne.
      pose proof (split_nonempty c rest) as Hnr.
      destruct (split c stem) as [| h t]; [contradiction |].
      destruct (split c rest) as [| h' t']; [contradiction |].
      destruct t as [| h2 t2]; reflexivity.
Qed.

Lemma includes_app_separator (c : ascii) (stem rest : string) :
  includes c (stem +:+ String c rest) = true.
Proof.
  induction stem as [| a stem IH];
    rewrite ?append_nil_l, ?append_cons; cbn -[Ascii.eqb String.append].
  - rewrite Ascii.eqb_refl. reflexivity.
  - destruct (Ascii.eqb a c); [reflexivity | exact IH].
Qed.

(** Splitting and joining again gives the string back. *)
Lemma join_split (c : ascii) (s : string) :
  String.concat (String c EmptyString) (split c s) = s.
Proof.
  induction s as [| a s IH]; [reflexivity |]. cbn [split].
  destruct (Ascii.eqb_spec a c) as [-> | Hne].
  - pose proof (split_nonempty c s) as Hn.
    destruct (split c s) as [| h t]; [contradiction |].
    cbn in *. rewrite IH. reflexivity.
  - pose proof (split_nonempty c s) as Hn.
    destruct (split c s) as [| h t]; [contradiction |].
    destruct t as [| h2 t2]; cbn in *; rewrite <- IH; reflexivity.
Qed.

Lemma last_dot_decomposition (c : ascii) (name : string) :
  includes c name = true ->
  exists stem ext, name = stem +:+ String c ext /\ includes c ext = false.
Proof.
  induction name as [| a name IH]; cbn -[Ascii.eqb]; [discriminate |].
  destruct (includes c name) eqn:Hrest.
  - intros _. destruct (IH eq_refl) as (stem & ext & -> & Hext).
    exists (String a stem), ext. split; [reflexivity | exact Hext].
  - destruct (Ascii.eqb_spec a c) as [-> | Hne]; [| discriminate].
    intros _. exists EmptyString, name. split; [reflexivity | exact Hrest].
Qed.

Lemma split_last_segment (c : ascii) (stem ext : string) :
  includes c ext = false ->
  split c (stem +:+ String c ext) = split c stem ++ [ext].
Proof.
  intros Hext. rewrite split_at_separator, (split_without_separator c ext Hext).
  pose proof (split_nonempty c stem) as Hne.
  rewrite (app_removelast_last EmptyString Hne) at 3.
  rewrite <- app_assoc. reflexivity.
Qed.

(** X1.  For a file name that contains a dot, [#guessExtension] returns
    the part after the last dot, whatever the media type: the name is some
    stem, a dot, and the result, and the result contains no dot (it is
    empty when the name ends in a dot). *)
Theorem guessExtension_is_suffix_after_last_dot (name mime : string) :
  includes "." name = true ->
  includes "." (guessExtension name mime) = false /\
  exists stem, name = stem +:+ "." +:+ guessExtension name mime.
Proof.
  intros Hdot. unfold guessExtension. rewrite Hdot.
  destruct (last_dot_decomposition "." name Hdot) as (stem & ext & -> & Hext).
  rewrite (split_last_segment "." stem ext Hext), last_last.
  split; [exact Hext |]. exists stem. reflexivity.
Qed.

Lemma guessExtension_is_suffix_witness :
  includes "." "clip.final.webm" = true /\
  includes "." (guessExtension "clip.final.webm" "video/mp4") = false /\
  exists stem, "clip.final.webm" = stem +:+ "." +:+ guessExtension "clip.final.webm" "video/mp4".
Proof.
  split; [reflexivity |].
  exact (guessExtension_is_suffix_after_last_dot "clip.final.webm" "video/mp4" eq_refl).
Defined.

(** X2.  For a file name without a dot, [#guessExtension] never returns
    the empty string: it returns the subtype of a media type of the form
    [type/subtype] when the subtype is not empty, and ["mp4"] when the media
    type has no slash (also when it is empty) or an empty subtype. *)
Theorem guessExtension_falls_back_to_mime (name mime : string) :
  includes "." name = false ->
  guessExtension name mime <> EmptyString /\
  (includes "/" mime = false -> guessExtension name mime = "mp4") /\
  (forall ty sub,
     mime = ty +:+ "/" +:+ sub ->
     includes "/" ty = false -> includes "/" sub = false ->
     guessExtension name mime = if sub =? EmptyString then "mp4" else sub).
Proof.
  intros Hdot. unfold guessExtension. rewrite Hdot. split; [| split].
  - destruct (nth_error _ 1) as [part |]; [| discriminate].
    destruct (String.eqb_spec part EmptyString); cbn; [discriminate | assumption].
  - intros Hslash. destruct (mime =? EmptyString); cbn; [reflexivity |].
    rewrite (split_without_separator "/" mime Hslash). reflexivity.
  - intros ty sub -> Hty Hsub.
    assert (Hne : (ty +:+ "/" +:+ sub =? EmptyString) = false).
    { destruct ty; reflexivity. }
    rewrite Hne. cbn [negb].
    change (ty +:+ "/" +:+ sub) with (ty +:+ String "/" sub).
    rewrite (split_last_segment "/" ty sub Hsub), (split_without_separator "/" ty Hty).
    cbn. destruct (sub =? EmptyString); reflexivity.
Qed.

Lemma guessExtension_falls_back_witness :
  includes "." "recording" = false /\
  guessExtension "recording" "video/quicktime" = "quicktime" /\
  guessExtension "recording" "video/" = "mp4".
Proof.
  split; [reflexivity |].
  pose proof (guessExtension_falls_back_to_mime "recording" "video/quicktime" eq_refl)
    as (_ & _ & H1).
  pose proof (guessExtension_falls_back_to_mime "recording" "video/" eq_refl)
    as (_ & _ & H2).
  split.
  - exact (H1 "video" "quicktime" eq_refl eq_refl eq_refl).
  - exact (H2 "video" EmptyString eq_refl eq_refl eq_refl).
Defined.

Lemma supported_mode_cases (m : string) :
  supported_mode (Some m) = true ->
  m = CompressionMode.COPY \/ m = CompressionMode.COPY_MUTE \/ m = CompressionMode.REENCODE.
Proof.
  unfold supported_mode.
  destruct (String.eqb_spec m CompressionMode.COPY); [auto |].
  destruct (String.eqb_spec m CompressionMode.COPY_MUTE); [auto |].
  destruct (String.eqb_spec m CompressionMode.REENCODE); [auto | discriminate].
Qed.

(** X3.  [#buildArgs] fails in exactly two cases, and which case does not
    depend on the two names: the mode is none of the three supported values
    (the error names the mode), or the mode is re-encode and the video
    options carry both [crf] and [bitrate].  In every other case a list is
    returned. *)
Theorem buildArgs_fails_exactly_when (i out : string) (opts : CompressionOptions) :
  match buildArgs i out opts with
  | Ok _ =>
      supported_mode (mode opts) = true /\
      (mode opts = Some CompressionMode.REENCODE -> conflicting_video (video opts) = false)
  | Throw e =>
      (supported_mode (mode opts) = false /\
       e = Error ("Unsupported compression mode: " +:+ default "undefined" (mode opts))) \/
      (mode opts = Some CompressionMode.REENCODE /\
       conflicting_video (video opts) = true /\
       e = Error "Provide either crf or bitrate for video, not both.")
  end /\
  forall i' out', (exists e, buildArgs i out opts = Throw e) ->
                  buildArgs i' out' opts = buildArgs i out opts.
Proof.
  unfold buildArgs, supported_mode.
  destruct (mode opts) as [m |]; [| split; [left; split; reflexivity | reflexivity]].
  destruct (String.eqb_spec m CompressionMode.COPY) as [-> | Hc]; cbn.
  { split; [split; [reflexivity | discriminate] |]. intros i' out' [e He]. discriminate. }
  destruct (String.eqb_spec m CompressionMode.COPY_MUTE) as [-> | Hm]; cbn.
  { split; [split; [reflexivity | discriminate] |]. intros i' out' [e He]. discriminate. }
  destruct (String.eqb_spec m CompressionMode.REENCODE) as [-> | Hr]; cbn.
  - unfold applyVideoOptions, conflicting_video.
    destruct (video opts) as [v |]; cbn.
    + destruct (crf v), (video_bitrate v); cbn.
      * split; [right; auto | reflexivity].
      * split; [split; reflexivity |]. intros i' out' [e He]. discriminate.
      * split; [split; reflexivity |]. intros i' out' [e He]. discriminate.
      * split; [split; reflexivity |]. intros i' out' [e He]. discriminate.
    + split; [split; reflexivity |]. intros i' out' [e He]. discriminate.
  - split; [left; split; reflexivity | reflexivity].
Qed.

Lemma buildArgs_fails_witness :
  buildArgs "a.mp4" "b.mp4" (options_of_mode "COPY")
  = buildArgs "input-1.mp4" "out.mp4" (options_of_mode "COPY").
Proof.
  refine (proj2 (buildArgs_fails_exactly_when "input-1.mp4" "out.mp4" (options_of_mode "COPY"))
            "a.mp4" "b.mp4" _).
  eexists. reflexivity.
Defined.

Lemma removelast_snoc {A} (l : list A) (x : A) : removelast (l ++ [x]) = l.
Proof. apply removelast_last. Qed.

(** X11.  [buildOutputName] drops the extension of the file name and appends
    the mode's suffix and [.mp4]: a name [stem.ext], where [ext] has no
    dot, gives [stem-<suffix>.mp4] (also for an empty stem), and a name
    without a dot gives [name-<suffix>.mp4]; the suffix is ["reencoded"] for
    mode re-encode and ["compressed"] for every other mode. *)
Theorem buildOutputName_replaces_extension (file : File) (mode : string) :
  let suffix := if mode =? CompressionMode.REENCODE then "reencoded" else "compressed" in
  (includes "." (file_name file) = false ->
     buildOutputName file mode = file_name file +:+ "-" +:+ suffix +:+ ".mp4") /\
  (forall stem ext,
     file_name file = stem +:+ "." +:+ ext -> includes "." ext = false ->
     buildOutputName file mode = stem +:+ "-" +:+ suffix +:+ ".mp4").
Proof.
  cbv zeta. unfold buildOutputName. split.
  - intros Hdot. rewrite (split_without_separator "." _ Hdot). reflexivity.
  - intros stem ext Hname Hext. rewrite Hname.
    change (stem +:+ "." +:+ ext) with (stem +:+ String "." ext).
    rewrite (split_last_segment "." stem ext Hext), removelast_snoc.
    change "."%string with (String "." EmptyString).
    rewrite (join_split "." stem).
    destruct (String.eqb_spec stem EmptyString) as [-> | Hne]; cbn [negb].
    + reflexivity.
    + reflexivity.
Qed.

Lemma buildOutputName_witness :
  buildOutputName sample_file "reencode" = "sample-reencoded.mp4".
Proof.
  exact (proj2 (buildOutputName_replaces_extension sample_file "reencode")
           "sample" "mp4" eq_refl eq_refl).
Defined.

(** X12.  The options the page builds are accepted by [#buildArgs] for each
    of the three modes (they never carry both [crf] and [bitrate]), and are
    rejected as unsupported for any other value of the mode selector.  In
    mode re-encode the arguments are the H.264 / CRF 23 / medium / AAC 128k
    line; in the two copy modes the audio options the page adds change
    nothing. *)
Theorem page_options_are_accepted (m i out out' : string) :
  (m = CompressionMode.REENCODE ->
     buildArgs i out (handleVideoFile_options m out')
     = Ok (["-i"; i] ++ ["-c:v"; "libx264"; "-crf"; "23"; "-preset"; "medium";
                         "-c:a"; "aac"; "-b:a"; "128k"; "-movflags"; "+faststart"]
                     ++ ["-y"; out])) /\
  (m = CompressionMode.COPY \/ m = CompressionMode.COPY_MUTE ->
     buildArgs i out (handleVideoFile_options m out')
     = buildArgs i out (options_of_mode m)) /\
  (supported_mode (Some m) = true ->
     exists l, buildArgs i out (handleVideoFile_options m out') = Ok l) /\
  (supported_mode (Some m) = false ->
     buildArgs i out (handleVideoFile_options m out')
     = Throw (Error ("Unsupported compression mode: " +:+ m))).
Proof.
  split; [| split; [| split]].
  - intros ->. reflexivity.
  - intros [-> | ->]; reflexivity.
  - intros Hs. destruct (supported_mode_cases m Hs) as [-> | [-> | ->]];
      eexists; reflexivity.
  - unfold supported_mode, handleVideoFile_options, buildArgs.
    destruct (m =? CompressionMode.COPY) eqn:Hc; [discriminate |].
    destruct (m =? CompressionMode.COPY_MUTE) eqn:Hm; [discriminate |].
    destruct (m =? CompressionMode.REENCODE) eqn:Hr; [discriminate |].
    cbn. rewrite Hc, Hm, Hr. reflexivity.
Qed.

Lemma page_options_witness :
  exists l, buildArgs "input-1.mp4" "sample-compressed.mp4"
              (handleVideoFile_options "copy-mute" "sample-compressed.mp4") = Ok l.
Proof.
  exact (proj1 (proj2 (proj2 (page_options_are_accepted "copy-mute" "input-1.mp4"
                                "sample-compressed.mp4" "sample-compressed.mp4")))
           eq_refl).
Defined.

(** * Further properties of the stateful methods *)

Section WrapperUse.
Context {E : Type} {ops : EngineOps E}.
Variable clock : nat -> Z.

Ltac unfold_methods :=
  unfold compress_resume, compress_call, init_promise, init_call, init_resume,
    in_try, finally_block, cleanupFiles, forEach, cleanup_path,
    try_finally, try_catch, engine_call,
    set_isRunningJob, set_activeJobHooks, set_loadingPromise, set_ffmpeg, set_self,
    record, Date_now, this, bind, ret, throw, await, as_task in *.

Ltac open_world w :=
  let c := fresh "cfg" in
  let f := fresh "eng" in
  let l := fresh "lp" in
  let h := fresh "hooks" in
  let b := fresh "busy" in
  let t := fresh "tr" in
  let n := fresh "reads" in
  destruct w as [[c f l h b] t n]; cbn in *.

(** X4.  The three guards at the head of [compress] reject at once and
    leave the instance, the engine and the clock untouched, in this order:
    a first argument that is not a [File]; options that are missing, or
    whose mode is missing or the empty string (also while a job is
    running); a running job. *)
Theorem guards_reject_without_effect (w : World E) :
  (forall options,
     as_task (compress_call ANotAFile options) w
     = (Settled (Throw (Error "Input must be a browser File object.")), w)) /\
  (forall f,
     as_task (compress_call (AFile f) None) w
     = (Settled (Throw (Error "Compression mode is required.")), w)) /\
  (forall f o, truthy_string (mode o) = false ->
     as_task (compress_call (AFile f) (Some o)) w
     = (Settled (Throw (Error "Compression mode is required.")), w)) /\
  (forall f o, truthy_string (mode o) = true -> isRunningJob (self w) = true ->
     as_task (compress_call (AFile f) (Some o)) w
     = (Settled (Throw (Error "Another compression job is already running on this instance.")),
        w)).
Proof.
  repeat apply conj.
  - intros options. reflexivity.
  - intros f. reflexivity.
  - intros f o Hm. unfold_methods. rewrite Hm. reflexivity.
  - intros f o Hm Hb. open_world w. subst busy. unfold_methods. rewrite Hm. reflexivity.
Qed.

Lemma finally_block_idle (job : Job) (w : World E) :
  isRunningJob (self (snd (finally_block job w))) = false /\
  activeJobHooks (self (snd (finally_block job w))) = no_hooks.
Proof.
  destruct (ffmpeg (self w)) as [e |] eqn:He.
  - rewrite (finally_block_run job w e He). split; reflexivity.
  - rewrite (finally_block_no_engine job w He). split; reflexivity.
Qed.

Lemma resume_keeps_idle_outside_job (pc : CompressPc) (w : World E) :
  idle_outside_job (Suspended pc) w ->
  idle_outside_job (fst (as_task (compress_resume clock pc) w))
                   (snd (as_task (compress_resume clock pc) w)).
Proof.
  destruct pc as [f o [[] | err] | job [data | err] | job [[] | err]
                 | job [[] | err] | job p]; cbn [idle_outside_job]; intros Hidle.
  - open_world w. subst busy. unfold_methods.
    cbn -[buildArgs guessExtension String_of_number].
    destruct (truthy_string (fileName (default no_output (output o))));
      cbn -[buildArgs guessExtension String_of_number];
      match goal with
      | |- context [buildArgs ?i ?out o] => destruct (buildArgs i out o)
      end; cbn; destruct eng; reflexivity.
  - exact Hidle.
  - destruct (ffmpeg (self w)) as [e |] eqn:He.
    + unfold as_task. rewrite (resume_fetch_fulfilled clock job data w e He). exact Hidle.
    + open_world w. subst eng. exact Hidle.
  - exact Hidle.
  - destruct (ffmpeg (self w)) as [e |] eqn:He.
    + unfold as_task. rewrite (resume_write_fulfilled clock job w e He). exact I.
    + open_world w. subst eng. reflexivity.
  - exact Hidle.
  - destruct (ffmpeg (self w)) as [e |] eqn:He.
    + unfold as_task. rewrite (resume_exec_fulfilled clock job w e He). exact I.
    + open_world w. subst eng. reflexivity.
  - unfold as_task. rewrite resume_exec_rejected. apply finally_block_idle.
  - unfold as_task. rewrite resume_read_settles.
    destruct p; apply finally_block_idle.
Qed.

Lemma settle_keeps_idle_outside_job (n : nat) (t : Task Blob CompressPc) (w : World E) :
  idle_outside_job t w ->
  idle_outside_job (fst (settle clock n t w)) (snd (settle clock n t w)).
Proof.
  revert t w. induction n as [| n IH]; intros t w Hidle; [exact Hidle |].
  destruct t as [r | pc]; [exact Hidle |]. cbn [settle].
  pose proof (resume_keeps_idle_outside_job pc w Hidle) as Hstep.
  destruct (as_task (compress_resume clock pc) w) as [t' w']. apply IH, Hstep.
Qed.

(** X5.  A [compress] call that is awaited before anything else is done
    with the instance leaves the instance idle, however it ends: made on an
    idle instance it never leaves the busy flag set, so the next call is
    not turned away by the busy guard. *)
Theorem awaited_call_leaves_instance_idle
    (file : FileArg) (options : option CompressionOptions) (w : World E) :
  isRunningJob (self w) = false ->
  isRunningJob (self (snd (compress_await clock file options w))) = false.
Proof.
  intros Hidle. unfold compress_await.
  destruct (as_task (compress_call file options) w) as [t w1] eqn:Hcall.
  assert (H1 : idle_outside_job t w1).
  { pose proof (compress_call_keeps_engine file options w) as _.
    destruct file as [f |]; [| inversion Hcall; subst; exact Hidle].
    destruct options as [o |]; [| inversion Hcall; subst; exact Hidle].
    destruct (truthy_string (mode o)) eqn:Hm.
    - destruct (compress_call_idle f o w Hm Hidle) as (p & w1' & l & Hr & _ & _ & _ & Hb & _).
      rewrite Hr in Hcall. inversion Hcall; subst. exact Hb.
    - destruct (guards_reject_without_effect w) as (_ & _ & Hg & _).
      rewrite (Hg f o Hm) in Hcall. inversion Hcall; subst. exact Hidle. }
  pose proof (settle_keeps_idle_outside_job 5 t w1 H1) as H5.
  pose proof (settle_settles clock 5 t w1) as Hs.
  destruct (settle clock 5 t w1) as [t' w'] eqn:Hset. cbn [fst snd] in *.
  destruct Hs as [r Hr].
  { destruct t as [r | pc]; [exact I |]. destruct pc; cbn; lia. }
  subst t'. exact H5.
Qed.

Lemma buildArgs_accepts (i out : string) (o : CompressionOptions) :
  supported_mode (mode o) = true ->
  (mode o = Some CompressionMode.REENCODE -> conflicting_video (video o) = false) ->
  exists l, buildArgs i out o = Ok l.
Proof.
  intros Hs Hc. pose proof (proj1 (buildArgs_fails_exactly_when i out o)) as H.
  destruct (buildArgs i out o) as [l | e]; [eexists; reflexivity |].
  destruct H as [[Hn _] | (Hm & Hv & _)]; [congruence |].
  rewrite (Hc Hm) in Hv. discriminate.
Qed.

Lemma settle_settled (n : nat) (r : Res Blob) (w : World E) :
  settle clock n (Settled r) w = (Settled r, w).
Proof. destruct n; reflexivity. Qed.

Lemma cleanup_effect_calls (job : Job) (path : string) (e : E) :
  path = inputName job \/ path = outputName job ->
  forallb (is_cleanup_call job) (snd (cleanup_effect path e)) = true.
Proof.
  intros Hpath.
  assert (Hp : (path =? inputName job) || (path =? outputName job) = true).
  { destruct Hpath as [-> | ->]; rewrite String.eqb_refl; [reflexivity | apply orb_true_r]. }
  unfold cleanup_effect.
  destruct (engine_FS "stat" path e) as [e1 [[|] | err]]; cbn; rewrite Hp; reflexivity.
Qed.

Lemma finally_effect_calls (job : Job) (e : E) :
  forallb (is_cleanup_call job) (snd (finally_effect job e)) = true.
Proof.
  unfold finally_effect.
  pose proof (cleanup_effect_calls job (inputName job) e (or_introl eq_refl)) as H1.
  destruct (cleanup_effect (inputName job) e) as [e1 l1].
  pose proof (cleanup_effect_calls job (outputName job) e1 (or_intror eq_refl)) as H2.
  destruct (cleanup_effect (outputName job) e1) as [e2 l2].
  cbn [fst snd] in *. rewrite forallb_app, H1, H2. reflexivity.
Qed.

Lemma finally_block_trace (job : Job) (w : World E) :
  exists l, trace (snd (finally_block job w)) = trace w ++ l /\
            forallb (is_cleanup_call job) l = true /\
            config (self (snd (finally_block job w))) = config (self w).
Proof.
  destruct (ffmpeg (self w)) as [e |] eqn:He.
  - rewrite (finally_block_run job w e He). exists (snd (finally_effect job e)).
    split; [reflexivity |]. split; [apply finally_effect_calls | reflexivity].
  - rewrite (finally_block_no_engine job w He). exists [].
    cbn. rewrite app_nil_r. auto.
Qed.

Lemma resume_without_engine (pc : CompressPc) (w : World E) :
  ffmpeg (self w) = None ->
  match pc with
  | AwaitFetch _ (Ok _) | AwaitWriteFile _ (Ok _) | AwaitExec _ (Ok _) =>
      exists w1, compress_resume clock pc w
                 = (Throw (Error "TypeError: Cannot read properties of null"), w1)
  | _ => True
  end.
Proof.
  intros He. destruct pc as [f o p | job [data | err] | job [[] | err]
                            | job [[] | err] | job p]; try exact I;
    open_world w; subst eng; eexists; reflexivity.
Qed.

(** *** An awaited call, step by step *)

Lemma settle_suspended (n : nat) (pc : CompressPc) (w : World E) :
  settle clock (S n) (Suspended pc) w
  = settle clock n (fst (as_task (compress_resume clock pc) w))
      (snd (as_task (compress_resume clock pc) w)).
Proof. cbn [settle]. destruct (as_task _ w). reflexivity. Qed.

Lemma read_stage (n : nat) (job : Job) (p : Promise bytes) (w : World E) :
  settles_with job (settle clock (S n) (Suspended (AwaitReadFile job p)) w) w
    (contract_read job p) [].
Proof.
  unfold settles_with. rewrite settle_suspended. unfold as_task.
  rewrite resume_read_settles.
  destruct (finally_block_trace job w) as (l & Ht & Hl & _).
  destruct (finally_block_idle job w) as [Hi Hh].
  exists l.
  destruct p as [data | err]; cbn [fst snd]; rewrite settle_settled;
    cbn [fst snd contract_read app];
    (split; [reflexivity |]); (split; [exact Ht |]); (split; [exact Hl |]).
  - intros _ _. split; assumption.
  - intros blob H. discriminate.
Qed.

Lemma exec_stage (n : nat) (job : Job) (p : Promise unit) (w : World E) (e : E) :
  ffmpeg (self w) = Some e ->
  settles_with job (settle clock (S (S n)) (Suspended (AwaitExec job p)) w) w
    (fst (contract_exec job p e)) (snd (contract_exec job p e)).
Proof.
  intros He. destruct p as [[] | err]; cbn [contract_exec fst snd].
  - rewrite settle_suspended. unfold as_task. rewrite (resume_exec_fulfilled clock job w e He).
    cbn [fst snd].
    destruct (read_stage n job (snd (engine_readFile (outputName job) e))
                (after_calls w (fst (engine_readFile (outputName job) e))
                   [CReadFile (outputName job)]))
      as (cleaned & Hr & Ht & Hc & Hi).
    exists cleaned. split; [exact Hr |]. split; [| split; assumption].
    rewrite Ht. cbn [trace after_calls]. rewrite <- !app_assoc. reflexivity.
  - rewrite settle_suspended. unfold as_task. rewrite resume_exec_rejected.
    cbn [fst snd]. rewrite settle_settled.
    destruct (finally_block_trace job w) as (l & Ht & Hl & _).
    exists l. cbn [fst snd app]. split; [reflexivity |]. split; [exact Ht |].
    split; [exact Hl |]. intros blob H. discriminate.
Qed.

Lemma settles_with_nil (job : Job) (err : JsError) (w : World E) :
  settles_with job (Settled (Throw err), w) w (Throw err) [].
Proof.
  exists []. cbn. rewrite app_nil_r. repeat split; try reflexivity; discriminate.
Qed.

Lemma write_stage (n : nat) (job : Job) (p : Promise unit) (w : World E) (e : E) :
  ffmpeg (self w) = Some e ->
  settles_with job (settle clock (S (S (S n))) (Suspended (AwaitWriteFile job p)) w) w
    (fst (contract_write job p e)) (snd (contract_write job p e)).
Proof.
  intros He. destruct p as [[] | err]; cbn [contract_write fst snd].
  - rewrite settle_suspended. unfold as_task. rewrite (resume_write_fulfilled clock job w e He).
    cbn [fst snd].
    destruct (exec_stage n job (snd (engine_exec (args job) e))
                (after_calls (running w) (fst (engine_exec (args job) e)) [CExec (args job)])
                (fst (engine_exec (args job) e)) eq_refl)
      as (cleaned & Hr & Ht & Hc & Hi).
    exists cleaned. split; [exact Hr |]. split; [| split; assumption].
    rewrite Ht. cbn [trace after_calls running]. rewrite <- !app_assoc. reflexivity.
  - rewrite settle_suspended. unfold as_task. rewrite (resume_write_rejected clock job err w).
    cbn [fst snd]. rewrite settle_settled. apply settles_with_nil.
Qed.

Lemma fetch_stage (n : nat) (job : Job) (p : Promise bytes) (w : World E) (e : E) :
  ffmpeg (self w) = Some e ->
  settles_with job (settle clock (S (S (S (S n)))) (Suspended (AwaitFetch job p)) w) w
    (fst (contract_fetch job p e)) (snd (contract_fetch job p e)).
Proof.
  intros He. destruct p as [data | err]; cbn [contract_fetch fst snd].
  - rewrite settle_suspended. unfold as_task.
    rewrite (resume_fetch_fulfilled clock job data w e He). cbn [fst snd].
    destruct (write_stage n job (snd (engine_writeFile (inputName job) data e))
                (after_calls w (fst (engine_writeFile (inputName job) data e))
                   [CWriteFile (inputName job) data])
                (fst (engine_writeFile (inputName job) data e)) eq_refl)
      as (cleaned & Hr & Ht & Hc & Hi).
    exists cleaned. split; [exact Hr |]. split; [| split; assumption].
    rewrite Ht. cbn [trace after_calls]. rewrite <- !app_assoc. reflexivity.
  - rewrite settle_suspended. unfold as_task. rewrite (resume_fetch_rejected clock job err w).
    cbn [fst snd]. rewrite settle_settled. apply settles_with_nil.
Qed.

(** The synchronous part of a call that passes the guards is the
    initialization. *)
Lemma call_stage (f : File) (o : CompressionOptions) (w : World E) :
  truthy_string (mode o) = true ->
  isRunningJob (self w) = false ->
  exists w1,
    as_task (compress_call (AFile f) (Some o)) w
    = (Suspended (AwaitInit f o (snd (fst (contract_init w)))), w1) /\
    trace w1 = trace w ++ snd (contract_init w) /\
    ffmpeg (self w1) = fst (fst (contract_init w)) /\
    config (self w1) = config (self w) /\
    clock_reads w1 = clock_reads w /\
    isRunningJob (self w1) = false /\
    activeJobHooks (self w1) = activeJobHooks (self w).
Proof.
  intros Hm Hb. open_world w. subst busy. unfold_methods. rewrite Hm.
  unfold contract_init, created_engine, ffmpegOptions_of. cbn.
  destruct eng as [e |]; cbn.
  - eexists. split; [reflexivity |]. cbn. rewrite app_nil_r. repeat split; reflexivity.
  - destruct lp as [p |]; cbn.
    + eexists. split; [reflexivity |]. cbn. rewrite app_nil_r. repeat split; reflexivity.
    + destruct (engine_load _) as [e1 p] eqn:Hl. cbn.
      eexists. split; [reflexivity |]. cbn. rewrite <- !app_assoc.
      repeat split; reflexivity.
Qed.

(** The piece between [await this.init()] and the fetch: the callbacks are
    installed, the job is named and its arguments are built. *)
Lemma init_stage (f : File) (o : CompressionOptions) (w : World E) :
  exists w1,
    compress_resume clock (AwaitInit f o (Ok tt)) w
    = (match contract_job clock (clock_reads w) f o with
       | Throw err => Throw err
       | Ok job =>
           match ffmpeg (self w) with
           | None => Throw (Error "TypeError: Cannot read properties of null")
           | Some _ => Ok (inr (AwaitFetch job (fileFetcher (config (self w)) f)))
           end
       end, w1) /\
    trace w1 = trace w ++ match contract_job clock (clock_reads w) f o, ffmpeg (self w) with
                          | Ok _, Some _ => [CFetch f]
                          | _, _ => []
                          end /\
    ffmpeg (self w1) = ffmpeg (self w) /\
    config (self w1) = config (self w) /\
    isRunningJob (self w1) = isRunningJob (self w) /\
    activeJobHooks (self w1) = resolved_hooks o (config (self w)) /\
    clock_reads w1
    = (if truthy_string (fileName (default no_output (output o))) then 1 else 2)
      + clock_reads w.
Proof.
  open_world w. unfold_methods. unfold contract_job.
  cbn -[buildArgs guessExtension String_of_number].
  destruct (truthy_string (fileName (default no_output (output o))));
    cbn -[buildArgs guessExtension String_of_number];
    match goal with
    | |- context [buildArgs ?i ?out o] => destruct (buildArgs i out o)
    end; cbn -[guessExtension String_of_number]; destruct eng;
    cbn -[guessExtension String_of_number]; eexists;
    (split; [reflexivity |]); cbn -[guessExtension String_of_number];
    rewrite ?app_nil_r; repeat split; reflexivity.
Qed.

Ltac stopped :=
  cbn [fst snd]; split; [reflexivity |]; exists []; rewrite ?app_nil_r;
  split; [first [reflexivity | assumption | congruence] |];
  split; [intros; reflexivity | discriminate].

(** An awaited call is the contract's run, followed by cleanup calls. *)
Lemma compress_await_run (file : FileArg) (options : option CompressionOptions) (w : World E) :
  fst (compress_await clock file options w)
  = Settled (fst (contract_run clock file options w)) /\
  exists cleaned,
    trace (snd (compress_await clock file options w))
    = trace w ++ snd (contract_run clock file options w) ++ cleaned /\
    (forall f o job, file = AFile f -> options = Some o ->
       contract_job clock (clock_reads w) f o = Ok job ->
       forallb (is_cleanup_call job) cleaned = true) /\
    (forall blob, fst (contract_run clock file options w) = Ok blob ->
       isRunningJob (self (snd (compress_await clock file options w))) = false /\
       activeJobHooks (self (snd (compress_await clock file options w))) = no_hooks).
Proof.
  unfold compress_await, contract_run.
  pose proof (guards_reject_without_effect w) as Hg.
  destruct Hg as (Hg1 & Hg2 & Hg3 & Hg4).
  destruct file as [f |]; [| rewrite Hg1, settle_settled; stopped].
  destruct options as [o |]; [| rewrite Hg2, settle_settled; stopped].
  destruct (truthy_string (mode o)) eqn:Hm;
    [| rewrite (Hg3 f o Hm), settle_settled; stopped].
  cbn [negb].
  destruct (isRunningJob (self w)) eqn:Hb;
    [rewrite (Hg4 f o Hm eq_refl), settle_settled; stopped |].
  clear Hg1 Hg2 Hg3 Hg4.
  destruct (call_stage f o w Hm Hb) as (w1 & Hcall & Ht1 & He1 & Hc1 & Hn1 & Hb1 & _).
  rewrite Hcall. clear Hcall.
  destruct (contract_init w) as [[eng p] created]. cbn [fst snd] in *.
  destruct p as [[] | err].
  2: { rewrite settle_suspended. unfold as_task.
       rewrite (resume_init_rejected clock f o err w1).
       cbn [fst snd]. rewrite settle_settled. stopped. }
  rewrite settle_suspended. unfold as_task.
  destruct (init_stage f o w1) as (w2 & Hr & Ht2 & He2 & Hc2 & _).
  rewrite Hr. clear Hr. rewrite Hn1, He1, Hc1 in *.
  destruct (contract_job clock (clock_reads w) f o) as [job | err] eqn:Hjob.
  2: { cbn [fst snd]. rewrite settle_settled. rewrite app_nil_r in Ht2. stopped. }
  destruct eng as [e |].
  2: { cbn [fst snd]. rewrite settle_settled. rewrite app_nil_r in Ht2. stopped. }
  cbn [fst snd].
  destruct (fetch_stage 0 job (fileFetcher (config (self w)) f) w2 e He2)
    as (cleaned & Hfst & Htr & Hcl & Hidle).
  split; [exact Hfst |]. exists cleaned. cbn [fst snd].
  split; [| split].
  - rewrite Htr, Ht2, Ht1. rewrite <- !app_assoc. reflexivity.
  - intros f' o' job' Hf Ho Hj. inversion Hf; inversion Ho; subst f' o'.
    rewrite Hjob in Hj. inversion Hj; subst job'. exact Hcl.
  - exact Hidle.
Qed.

(** C7.  An awaited [compress] call settles with the outcome of the
    contract: the blob of the bytes [readFile] returned when every step
    succeeds, and otherwise the very error of the first step that failed,
    be it a guard, the awaited initialization (the engine's load), argument
    building (option validation), the fetch, [writeFile], [exec] or
    [readFile].  The outcome does not depend on what [FS] does during
    cleanup: [#cleanupFiles] and the [finally] block never throw, for every
    engine.  The same holds at each single resumption, whatever was
    scheduled before it: the rejection of the awaited promise is the
    outcome as it is. *)
Theorem C7_outcome_is_first_error_or_blob :
  (forall file options w,
     fst (compress_await clock file options w)
     = Settled (fst (contract_run clock file options w))) /\
  (forall paths w, fst (cleanupFiles paths w) = Ok tt) /\
  (forall job w, fst (finally_block job w) = Ok tt) /\
  (forall f o err w,
     as_task (compress_resume clock (AwaitInit f o (Throw err))) w
     = (Settled (Throw err), w)) /\
  (forall f o err w,
     (forall i out, buildArgs i out o = Throw err) ->
     fst (as_task (compress_resume clock (AwaitInit f o (Ok tt))) w)
     = Settled (Throw err)) /\
  (forall job err w,
     as_task (compress_resume clock (AwaitFetch job (Throw err))) w
     = (Settled (Throw err), w)) /\
  (forall job err w,
     as_task (compress_resume clock (AwaitWriteFile job (Throw err))) w
     = (Settled (Throw err), w)) /\
  (forall job err w,
     fst (as_task (compress_resume clock (AwaitExec job (Throw err))) w)
     = Settled (Throw err)) /\
  (forall job err w,
     fst (as_task (compress_resume clock (AwaitReadFile job (Throw err))) w)
     = Settled (Throw err)) /\
  (forall job data w,
     fst (as_task (compress_resume clock (AwaitReadFile job (Ok data))) w)
     = Settled (Ok {| blob_data := data; blob_type := job_mimeType job |})).
Proof.
  repeat apply conj.
  - intros file options w. apply compress_await_run.
  - apply cleanupFiles_never_throws.
  - apply finally_block_never_throws.
  - reflexivity.
  - intros f o err w Hb.
    destruct (resume_init_invalid_options clock f o err w Hb) as (w' & Hr & _).
    unfold as_task. rewrite Hr. reflexivity.
  - reflexivity.
  - reflexivity.
  - intros job err w. unfold as_task. rewrite resume_exec_rejected. reflexivity.
  - intros job err w. unfold as_task. rewrite resume_read_settles. reflexivity.
  - intros job data w. unfold as_task. rewrite resume_read_settles. reflexivity.
Qed.

Lemma contract_job_fields (reads : nat) (f : File) (o : CompressionOptions) (job : Job) :
  contract_job clock reads f o = Ok job ->
  let out := default no_output (output o) in
  inputName job
  = "input-" +:+ String_of_number (clock reads) +:+ "."
    +:+ guessExtension (file_name f) (file_type f) /\
  outputName job
  = (if truthy_string (fileName out) then default EmptyString (fileName out)
     else "output-" +:+ String_of_number (clock (S reads)) +:+ "."
          +:+ match container out with
              | Absent => "mp4"
              | Undefined => "undefined"
              | Value c => c
              end) /\
  job_mimeType job
  = match mimeType out with
    | Absent => "video/mp4"
    | Undefined => EmptyString
    | Value m => Blob_type (Some m)
    end /\
  buildArgs (inputName job) (outputName job) o = Ok (args job).
Proof.
  unfold contract_job. cbv zeta.
  destruct (buildArgs _ _ o) as [l | err] eqn:Hb; [| discriminate].
  intros H. inversion H; subst job; clear H. cbn [inputName outputName job_mimeType args].
  split; [reflexivity |]. split; [| split; [| exact Hb]].
  - destruct (container (default no_output (output o))); reflexivity.
  - destruct (mimeType (default no_output (output o))); reflexivity.
Qed.

Lemma contract_job_accepts (reads : nat) (f : File) (o : CompressionOptions) :
  supported_mode (mode o) = true ->
  (mode o = Some CompressionMode.REENCODE -> conflicting_video (video o) = false) ->
  exists job, contract_job clock reads f o = Ok job.
Proof.
  intros Hs Hc. unfold contract_job. cbv zeta.
  match goal with
  | |- context [buildArgs ?i ?out o] =>
      destruct (buildArgs_accepts i out o Hs Hc) as [l Hl]; rewrite Hl
  end.
  eexists. reflexivity.
Qed.

(** X6.  When a call with accepted options passes initialization, it
    names its two virtual files from the clock: the input is
    [input-<now>.<ext>] with the guessed extension; the output is
    [output.fileName] as it is when that is a non-empty string, and
    otherwise [output-<now'>.<container>] from the next clock reading.  The
    container is ["mp4"] when [output] has no such property, and the
    property's value otherwise, an [undefined] one being printed as
    ["undefined"]; likewise the type of the blob is ["video/mp4"] when
    [output] has no [mimeType] property, empty for an [undefined] one, and
    otherwise the type a blob gets from the property's value.
    The arguments are built from these names, the callbacks of the call
    are installed, and the fetch of the file is the only call made. *)
Theorem job_is_named_from_clock (f : File) (o : CompressionOptions) (w : World E) (e : E) :
  ffmpeg (self w) = Some e ->
  supported_mode (mode o) = true ->
  (mode o = Some CompressionMode.REENCODE -> conflicting_video (video o) = false) ->
  let out := default no_output (output o) in
  exists job w',
    as_task (compress_resume clock (AwaitInit f o (Ok tt))) w
    = (Suspended (AwaitFetch job (fileFetcher (config (self w)) f)), w') /\
    inputName job
    = "input-" +:+ String_of_number (clock (clock_reads w)) +:+ "."
      +:+ guessExtension (file_name f) (file_type f) /\
    outputName job
    = (if truthy_string (fileName out) then default EmptyString (fileName out)
       else "output-" +:+ String_of_number (clock (S (clock_reads w))) +:+ "."
            +:+ match container out with
                | Absent => "mp4"
                | Undefined => "undefined"
                | Value c => c
                end) /\
    job_mimeType job
    = match mimeType out with
      | Absent => "video/mp4"
      | Undefined => EmptyString
      | Value m => Blob_type (Some m)
      end /\
    buildArgs (inputName job) (outputName job) o = Ok (args job) /\
    clock_reads w' = (if truthy_string (fileName out) then 1 else 2) + clock_reads w /\
    trace w' = trace w ++ [CFetch f] /\
    ffmpeg (self w') = Some e /\
    config (self w') = config (self w) /\
    isRunningJob (self w') = isRunningJob (self w) /\
    activeJobHooks (self w') = resolved_hooks o (config (self w)).
Proof.
  intros He Hs Hc. cbv zeta.
  destruct (contract_job_accepts (clock_reads w) f o Hs Hc) as [job Hjob].
  destruct (contract_job_fields _ f o job Hjob) as (Hin & Hout & Hmime & Hargs).
  destruct (init_stage f o w) as (w' & Hr & Ht & He' & Hcfg & Hb & Hh & Hn).
  rewrite Hjob, He in *.
  exists job, w'. unfold as_task. rewrite Hr.
  repeat (split; [first [reflexivity | assumption] |]). assumption.
Qed.

Lemma compress_call_init (f : File) (o : CompressionOptions) (w w1 : World E)
    (p : Promise unit) :
  truthy_string (mode o) = true ->
  isRunningJob (self w) = false ->
  init_promise w = (Ok p, w1) ->
  as_task (compress_call (AFile f) (Some o)) w = (Suspended (AwaitInit f o p), w1).
Proof.
  intros Hm Hb Hi. unfold as_task, compress_call, bind, this, ret. cbn. rewrite Hm.
  cbn. rewrite Hb, Hi. reflexivity.
Qed.

(** C9.  In mode copy or copy-mute the arguments depend on the mode and
    the two names only: any options with the same mode, whatever their
    video and audio options, build the same list, and building never
    fails.  So a call in such a mode on an idle instance, also one that
    supplies both [crf] and [bitrate], is never rejected by option
    validation: when the initialization it awaits fulfils, its outcome is
    that of the job from the fetch on; and when the fetch and [writeFile]
    fulfil, it calls [exec] with exactly those arguments. *)
Theorem C9_copy_ignores_stream_options
    (f : File) (o : CompressionOptions) (w w1 : World E) (e : E) :
  mode o = Some CompressionMode.COPY \/ mode o = Some CompressionMode.COPY_MUTE ->
  isRunningJob (self w) = false ->
  init_promise w = (Ok (Ok tt), w1) ->
  ffmpeg (self w1) = Some e ->
  (forall i out o', mode o' = mode o -> buildArgs i out o' = buildArgs i out o) /\
  exists job,
    contract_job clock (clock_reads w) f o = Ok job /\
    (forall o', mode o' = mode o ->
       buildArgs (inputName job) (outputName job) o' = Ok (args job)) /\
    (mode o = Some CompressionMode.COPY ->
       args job = ["-i"; inputName job; "-c:v"; "copy"; "-c:a"; "copy";
                   "-movflags"; "+faststart"; "-y"; outputName job]) /\
    (mode o = Some CompressionMode.COPY_MUTE ->
       args job = ["-i"; inputName job; "-c:v"; "copy"; "-an";
                   "-movflags"; "+faststart"; "-y"; outputName job]) /\
    fst (compress_await clock (AFile f) (Some o) w)
    = Settled (fst (contract_fetch job (fileFetcher (config (self w)) f) e)) /\
    forall data,
      fileFetcher (config (self w)) f = Ok data ->
      snd (engine_writeFile (inputName job) data e) = Ok tt ->
      exists rest,
        trace (snd (compress_await clock (AFile f) (Some o) w))
        = trace w1 ++ [CFetch f; CWriteFile (inputName job) data; CExec (args job)] ++ rest.
Proof.
  intros Hm Hb Hi He. split.
  { intros i out o' Hm'. apply buildArgs_mode_only; assumption. }
  assert (Hs : supported_mode (mode o) = true) by (destruct Hm as [-> | ->]; reflexivity).
  assert (Hc : mode o = Some CompressionMode.REENCODE -> conflicting_video (video o) = false)
    by (destruct Hm as [-> | ->]; discriminate).
  assert (Ht : truthy_string (mode o) = true) by (destruct Hm as [-> | ->]; reflexivity).
  destruct (contract_job_accepts (clock_reads w) f o Hs Hc) as [job Hjob].
  destruct (contract_job_fields _ f o job Hjob) as (_ & _ & _ & Hargs).
  exists job. split; [exact Hjob |]. split; [| split; [| split]].
  { intros o' Hm'. rewrite <- Hargs. apply buildArgs_mode_only; assumption. }
  { intros Hcopy. rewrite (buildArgs_copy _ _ o Hcopy) in Hargs.
    inversion Hargs. reflexivity. }
  { intros Hmute. rewrite (buildArgs_copy_mute _ _ o Hmute) in Hargs.
    inversion Hargs. reflexivity. }
  destruct (call_stage f o w Ht Hb) as (w1' & Hcall & _ & _ & Hc1 & Hn1 & _).
  rewrite (compress_call_init f o w w1 (Ok tt) Ht Hb Hi) in Hcall.
  inversion Hcall; subst w1'; clear Hcall.
  unfold compress_await. rewrite (compress_call_init f o w w1 (Ok tt) Ht Hb Hi).
  rewrite settle_suspended. unfold as_task.
  destruct (init_stage f o w1) as (w2 & Hr & Ht2 & He2 & Hc2 & _).
  rewrite Hr. clear Hr. rewrite Hn1, He, Hc1, Hjob in *. cbn [fst snd].
  destruct (fetch_stage 0 job (fileFetcher (config (self w)) f) w2 e He2)
    as (cleaned & Hfst & Htr & _).
  split; [exact Hfst |].
  intros data Hf Hw. rewrite Htr, Ht2, Hf. cbn [contract_fetch contract_write fst snd].
  rewrite Hw. cbn [contract_write fst snd].
  eexists. rewrite <- !app_assoc. cbn [app]. reflexivity.
Qed.

(** X7.  A [compress] call that resolves has run exactly one job, in
    order: the four calls of one engine creation exactly when the instance
    had no engine, the fetch of the file, [writeFile] of the fetched bytes
    under the input name, [exec] of the arguments built for the two names,
    [readFile] of the output name, and then only [FS] stat/unlink calls on
    these two names.  The blob carries the bytes [readFile] returned and
    the type given by the options (["video/mp4"] without a [mimeType]
    property, empty for an [undefined] one, otherwise the type a blob gets
    from the property's value); the instance is idle and has no active
    callbacks. *)
Theorem resolved_call_ran_one_job
    (file : FileArg) (options : option CompressionOptions) (w w' : World E) (blob : Blob) :
  compress_await clock file options w = (Settled (Ok blob), w') ->
  exists f o job e input data cleaned,
    file = AFile f /\ options = Some o /\
    e = match ffmpeg (self w) with
        | Some e0 => e0
        | None => fst (created_engine (config (self w)))
        end /\
    contract_job clock (clock_reads w) f o = Ok job /\
    buildArgs (inputName job) (outputName job) o = Ok (args job) /\
    fileFetcher (config (self w)) f = Ok input /\
    snd (engine_readFile (outputName job)
           (fst (engine_exec (args job)
                   (fst (engine_writeFile (inputName job) input e))))) = Ok data /\
    blob = {| blob_data := data;
              blob_type := match mimeType (default no_output (output o)) with
                           | Absent => "video/mp4"
                           | Undefined => EmptyString
                           | Value m => Blob_type (Some m)
                           end |} /\
    trace w' = trace w
               ++ match ffmpeg (self w) with
                  | Some _ => []
                  | None => [CFactory (ffmpegOptions_of (config (self w)));
                             COn "log"; COn "progress"; CLoad]
                  end
               ++ [CFetch f; CWriteFile (inputName job) input; CExec (args job);
                   CReadFile (outputName job)]
               ++ cleaned /\
    forallb (is_cleanup_call job) cleaned = true /\
    isRunningJob (self w') = false /\ activeJobHooks (self w') = no_hooks.
Proof.
  intros H.
  destruct (compress_await_run file options w) as (Hfst & cleaned & Htr & Hcl & Hidle).
  rewrite H in Hfst, Htr, Hidle. cbn [fst snd] in Hfst, Htr, Hidle.
  inversion Hfst as [Hrun]. symmetry in Hrun. clear Hfst.
  specialize (Hidle blob Hrun).
  unfold contract_run in Hrun, Htr.
  destruct file as [f |]; [| discriminate].
  destruct options as [o |]; [| discriminate].
  destruct (truthy_string (mode o)); cbn [negb] in Hrun, Htr; [| discriminate].
  destruct (isRunningJob (self w)); [discriminate |].
  assert (Hinit : snd (fst (contract_init w)) = Ok tt ->
                  fst (fst (contract_init w)) <> None ->
                  fst (fst (contract_init w))
                  = Some match ffmpeg (self w) with
                         | Some e0 => e0
                         | None => fst (created_engine (config (self w)))
                         end /\
                  snd (contract_init w)
                  = match ffmpeg (self w) with
                    | Some _ => []
                    | None => [CFactory (ffmpegOptions_of (config (self w)));
                               COn "log"; COn "progress"; CLoad]
                    end).
  { unfold contract_init. destruct (ffmpeg (self w)); [auto |].
    destruct (loadingPromise (self w)); cbn; [congruence | auto]. }
  destruct (snd (fst (contract_init w))) as [[] | err]; [| discriminate].
  destruct (contract_job clock (clock_reads w) f o) as [job | err] eqn:Hjob; [| discriminate].
  destruct (fst (fst (contract_init w))) as [e |]; [| discriminate].
  destruct Hinit as [He Hcreated]; [reflexivity | discriminate |].
  inversion He as [He']. rewrite Hcreated in Htr. clear He Hcreated.
  destruct (contract_job_fields _ f o job Hjob) as (_ & _ & Hmime & Hargs).
  destruct (fileFetcher (config (self w)) f) as [input | err] eqn:Hf; [| discriminate].
  cbn [contract_fetch fst snd] in Hrun, Htr.
  destruct (snd (engine_writeFile (inputName job) input e)) as [[] | err]; [| discriminate].
  cbn [contract_write fst snd] in Hrun, Htr.
  destruct (snd (engine_exec (args job) (fst (engine_writeFile (inputName job) input e))))
    as [[] | err]; [| discriminate].
  cbn [contract_exec fst snd] in Hrun, Htr.
  destruct (snd (engine_readFile (outputName job)
                   (fst (engine_exec (args job)
                           (fst (engine_writeFile (inputName job) input e))))))
    as [data | err] eqn:Hread; [| discriminate].
  cbn [contract_read] in Hrun. inversion Hrun as [Hblob].
  exists f, o, job, e, input, data, cleaned.
  split; [reflexivity |]. split; [reflexivity |]. split; [exact He' |].
  split; [exact Hjob |]. split; [exact Hargs |]. split; [exact Hf |].
  split; [exact Hread |]. split; [rewrite Hmime; reflexivity |].
  split; [rewrite <- app_assoc in Htr; exact Htr |].
  split; [exact (Hcl f o job eq_refl eq_refl Hjob) |]. exact Hidle.
Qed.

(** X8.  When a [compress] call passes initialization it installs its
    callbacks in place of whatever was active, also those of a job that is
    still running: from then on [#forwardProgress] and [#forwardLog] hand
    an engine event to the per-call callback if the call gave one, else to
    the instance's default, else to nobody.  Later resumptions that suspend
    again leave the active callbacks as they are. *)
Theorem callbacks_follow_latest_call {P : Type} :
  (forall f o (w : World E) (x : P) (message : string),
     let w' := snd (compress_resume clock (AwaitInit f o (Ok tt)) w) in
     forwardProgress (self w') x
     = option_map (fun h => (h, x))
         (or_handler (onProgress o) (config_onProgress (config (self w)))) /\
     forwardLog (self w') message
     = option_map (fun h => (h, message))
         (or_handler (onLog o) (config_onLog (config (self w))))) /\
  (forall pc pc' (w w' : World E),
     compress_resume clock pc w = (Ok (inr pc'), w') ->
     awaits_left pc < 5 ->
     activeJobHooks (self w') = activeJobHooks (self w)).
Proof.
  split.
  - intros f o w x message. cbv zeta.
    assert (Hh : activeJobHooks (self (snd (compress_resume clock (AwaitInit f o (Ok tt)) w)))
                 = resolved_hooks o (config (self w))).
    { open_world w. unfold_methods. cbn -[buildArgs guessExtension String_of_number].
      destruct (truthy_string (fileName (default no_output (output o))));
        cbn -[buildArgs guessExtension String_of_number];
        match goal with
        | |- context [buildArgs ?i ?out o] => destruct (buildArgs i out o)
        end; cbn; destruct eng; reflexivity. }
    unfold forwardProgress, forwardLog. rewrite Hh. cbn.
    destruct (or_handler (onProgress o) _), (or_handler (onLog o) _); split; reflexivity.
  - intros pc pc' w w' Hr Hpc.
    destruct pc as [f o p | job [data | err] | job [[] | err] | job [[] | err] | job p];
      cbn in Hpc; try lia.
    + destruct (ffmpeg (self w)) as [e |] eqn:He.
      * rewrite (resume_fetch_fulfilled clock job data w e He) in Hr.
        inversion Hr; subst. reflexivity.
      * destruct (resume_without_engine (AwaitFetch job (Ok data)) w He) as [w1 Hr'].
        rewrite Hr' in Hr. discriminate.
    + rewrite (resume_fetch_rejected clock job err w) in Hr. discriminate.
    + destruct (ffmpeg (self w)) as [e |] eqn:He.
      * rewrite (resume_write_fulfilled clock job w e He) in Hr.
        inversion Hr; subst. reflexivity.
      * destruct (resume_without_engine (AwaitWriteFile job (Ok tt)) w He) as [w1 Hr'].
        rewrite Hr' in Hr. discriminate.
    + rewrite (resume_write_rejected clock job err w) in Hr. discriminate.
    + destruct (ffmpeg (self w)) as [e |] eqn:He.
      * rewrite (resume_exec_fulfilled clock job w e He) in Hr.
        inversion Hr; subst. reflexivity.
      * destruct (resume_without_engine (AwaitExec job (Ok tt)) w He) as [w1 Hr'].
        rewrite Hr' in Hr. discriminate.
    + rewrite resume_exec_rejected in Hr. discriminate.
    + rewrite resume_read_settles in Hr. destruct p; discriminate.
Qed.

Lemma init_call_keeps_callbacks (w : World E) :
  activeJobHooks (self (snd (init_call w))) = activeJobHooks (self w).
Proof.
  open_world w. unfold_methods. cbn.
  destruct eng as [e |]; [reflexivity |].
  destruct lp as [p |]; [reflexivity |].
  cbn. destruct (engine_load _) as [e1 p]. reflexivity.
Qed.

(** X9.  Before the first [compress] call no callback is active: under
    every schedule of [init()] calls and their resumptions on a fresh
    instance, an engine event (a log line of the load, say) is handed to
    nobody, also when the instance was configured with default callbacks. *)
Theorem no_callback_before_first_job {P : Type}
    (cfg : VideoCompressorConfig E) (evs : list Event) (x : P) (message : string) :
  forallb is_init_event evs = true ->
  let s := self (world (run clock (new_System cfg) evs)) in
  forwardLog s message = None /\ forwardProgress s x = None.
Proof.
  intros Hevs. cbv zeta.
  assert (Hh : activeJobHooks (self (world (run clock (new_System cfg) evs))) = no_hooks).
  { assert (Hgen : forall sys, activeJobHooks (self (world sys)) = no_hooks ->
                     activeJobHooks (self (world (run clock sys evs))) = no_hooks).
    { induction evs as [| ev evs IH]; intros sys Hs; [exact Hs |].
      cbn in Hevs. apply andb_prop in Hevs as [Hev Hrest].
      cbn [run fold_left]. apply (IH Hrest).
      destruct ev as [| file options | i | i]; try discriminate; cbn [step].
      - pose proof (init_call_keeps_callbacks (world sys)) as Hk.
        rewrite <- (as_task_world (A := unit) (Pc := InitPc)) in Hk.
        destruct (as_task init_call (world sys)) as [t w1]. cbn in *. congruence.
      - destruct (inits sys !! i) as [[r | pc] |]; try exact Hs.
        pose proof (init_resume_keeps_world pc (world sys)) as Hk.
        rewrite <- (as_task_world (A := unit) (Pc := InitPc)) in Hk.
        destruct (as_task (init_resume pc) (world sys)) as [t w1]. cbn in *. congruence. }
    apply Hgen. reflexivity. }
  unfold forwardLog, forwardProgress. rewrite Hh. split; reflexivity.
Qed.

Lemma run_app (sys : System) (evs evs' : list Event) :
  run clock sys (evs ++ evs') = run clock (run clock sys evs) evs'.
Proof. unfold run. apply fold_left_app. Qed.

(** X10.  Under every schedule of [init] and [compress] calls and
    resumptions on a fresh instance, [load] is called at most once, and
    only after the instance got its engine: an instance without an engine
    has made no call of [load].  An engine, once the instance holds one,
    stays whatever is called afterwards. *)
Theorem engine_is_loaded_at_most_once
    (cfg : VideoCompressorConfig E) (evs evs' : list Event) :
  let w := world (run clock (new_System cfg) evs) in
  let w' := world (run clock (new_System cfg) (evs ++ evs')) in
  length (List.filter is_load_call (trace w)) <= 1 /\
  (ffmpeg (self w) = None -> List.filter is_load_call (trace w) = []) /\
  (ffmpeg (self w) <> None -> ffmpeg (self w') <> None).
Proof.
  cbv zeta. split; [apply (engine_created_at_most_once clock cfg evs) |]. split.
  - destruct (run_keeps_engine clock evs (new_System cfg)) as (_ & _ & Ho).
    assert (H0 : created_once (world (new_System cfg))).
    { unfold created_once. cbn. auto. }
    specialize (Ho H0). unfold created_once in Ho.
    intros He. rewrite He in Ho. destruct Ho as [_ Ho].
    rewrite load_calls_of_init_calls, Ho. reflexivity.
  - rewrite run_app.
    apply (run_keeps_engine clock evs' (run clock (new_System cfg) evs)).
Qed.

End WrapperUse.

Lemma awaited_call_leaves_instance_idle_witness :
  isRunningJob (self (new_World example_cfg)) = false /\
  isRunningJob (self (snd (compress_await MemEngine.clock (AFile sample_file)
                             (Some (conflicting_options "reencode"))
                             (new_World example_cfg)))) = false.
Proof.
  split; [reflexivity |].
  exact (awaited_call_leaves_instance_idle MemEngine.clock (AFile sample_file)
           (Some (conflicting_options "reencode")) (new_World example_cfg) eq_refl).
Defined.

(** * The page's handler: properties *)

Section PageProperties.
Context {E : Type} {ops : EngineOps E}.
Variable clock : nat -> Z.

(** X13.  While the page is processing a file, and for a missing file,
    [handleVideoFile] returns at once and changes nothing: neither the
    page nor the compressor.  Otherwise it raises the flag and calls
    [init()] before anything else. *)
Theorem page_ignores_files_while_processing (file : option File) (pg : Page) (w : World E) :
  (file = None \/ isProcessing pg = true ->
     handleVideoFile_await clock file pg w = (Settled (Ok tt), pg, w)) /\
  (forall f, file = Some f -> isProcessing pg = false ->
     exists p w1,
       handleVideoFile_call file pg w
       = (Suspended (AwaitPageInit f p),
          set_status "Loading FFmpeg core..." (set_isProcessing true pg), w1) /\
       init_promise w = (Ok p, w1)).
Proof.
  split.
  - intros [-> | Hp]; [reflexivity |].
    unfold handleVideoFile_await, handleVideoFile_call.
    destruct file; [rewrite Hp |]; reflexivity.
  - intros f -> Hp. unfold handleVideoFile_call. rewrite Hp.
    unfold init_promise.
    destruct (init_call w) as [[[[] | [p]] | err] w1]; eexists; eexists;
      split; reflexivity.
Qed.

Lemma handleVideoFile_after_compress_resets (name : string) (r : Res Blob) (pg : Page) :
  isProcessing (handleVideoFile_after_compress name r pg) = false.
Proof. destruct r as [blob | [message]]; reflexivity. Qed.

(** X14.  When the initialization succeeds, an awaited [handleVideoFile]
    always finishes with the page free again, whatever [compress] did: on
    success the blob is shown under the name [buildOutputName] gives for
    the selected mode and the status says the video is ready; on failure
    the status carries the error's message and what was shown stays. *)
Theorem page_is_released_after_compress (f : File) (pg : Page) (w w1 : World E) :
  isProcessing pg = false ->
  init_promise w = (Ok (Ok tt), w1) ->
  exists r w',
    handleVideoFile_await clock (Some f) pg w
    = (Settled (Ok tt),
       handleVideoFile_after_compress (buildOutputName f (modeSelect pg)) r
         (set_status (mode_status (modeSelect pg))
            (set_status "Loading FFmpeg core..." (set_isProcessing true pg))), w') /\
    compress_await clock (AFile f)
      (Some (handleVideoFile_options (modeSelect pg) (buildOutputName f (modeSelect pg)))) w1
    = (Settled r, w') /\
    let pg' := handleVideoFile_after_compress (buildOutputName f (modeSelect pg)) r
                 (set_status (mode_status (modeSelect pg))
                    (set_status "Loading FFmpeg core..." (set_isProcessing true pg))) in
    isProcessing pg' = false /\
    match r with
    | Ok blob =>
        shown pg' = Some (blob, buildOutputName f (modeSelect pg)) /\
        status pg' = "Video ready to download or preview."
    | Throw (Error message) =>
        shown pg' = shown pg /\
        status pg' = "Video compression failed: " +:+ message
    end.
Proof.
  intros Hp Hinit.
  unfold handleVideoFile_await, handleVideoFile_call. rewrite Hp, Hinit.
  unfold handleVideoFile_after_init. cbn [modeSelect set_status set_isProcessing].
  set (name := buildOutputName f (modeSelect pg)).
  set (options := handleVideoFile_options (modeSelect pg) name).
  unfold compress_await.
  destruct (as_task (compress_call (AFile f) (Some options)) w1) as [call w2] eqn:Hcall.
  destruct (settle_settles clock 5 call w2) as [r Hr].
  { destruct call as [r | pc]; [exact I |]. destruct pc; cbn; lia. }
  destruct (settle clock 5 call w2) as [t w3] eqn:Hset. cbn [fst] in Hr. subst t.
  exists r, w3. split; [reflexivity |]. split; [reflexivity |].
  cbv zeta. split; [apply handleVideoFile_after_compress_resets |].
  destruct r as [blob | [message]]; split; reflexivity.
Qed.

(** X15.  When the initialization fails, [handleVideoFile] rejects with
    that error and leaves [isProcessing] set ([await init()] stands before
    the [try] block, so the [finally] block is never reached): from then on
    every file handed to the page is ignored. *)
Theorem page_stays_busy_after_failed_init
    (f : File) (pg : Page) (w w1 : World E) (err : JsError) :
  isProcessing pg = false ->
  init_promise w = (Ok (Throw err), w1) ->
  exists pg',
    handleVideoFile_await clock (Some f) pg w = (Settled (Throw err), pg', w1) /\
    isProcessing pg' = true /\
    status pg' = "Loading FFmpeg core..." /\
    forall file' (w2 : World E),
      handleVideoFile_await clock file' pg' w2 = (Settled (Ok tt), pg', w2).
Proof.
  intros Hp Hinit.
  unfold handleVideoFile_await at 1. unfold handleVideoFile_call. rewrite Hp, Hinit.
  cbn [handleVideoFile_after_init]. eexists. split; [reflexivity |].
  split; [reflexivity |]. split; [reflexivity |].
  intros file' w2.
  apply (proj1 (page_ignores_files_while_processing file' _ w2)).
  right. reflexivity.
Qed.

End PageProperties.

Lemma page_ignores_files_witness :
  handleVideoFile_await MemEngine.clock (Some sample_file)
    (set_isProcessing true (new_Page "copy")) (new_World example_cfg)
  = (Settled (Ok tt), set_isProcessing true (new_Page "copy"), new_World example_cfg).
Proof.
  exact (proj1 (page_ignores_files_while_processing MemEngine.clock (Some sample_file)
                  (set_isProcessing true (new_Page "copy")) (new_World example_cfg))
           (or_intror eq_refl)).
Defined.

Lemma page_is_released_witness :
  let w := world (example_run example_cfg [CallInit; ResumeInit 0]) in
  exists r w',
    compress_await MemEngine.clock (AFile sample_file)
      (Some (handleVideoFile_options "reencode" (buildOutputName sample_file "reencode"))) w
    = (Settled r, w') /\
    fst (fst (handleVideoFile_await MemEngine.clock (Some sample_file)
                (new_Page "reencode") w))
    = Settled (Ok tt).
Proof.
  intros w.
  assert (Hinit : init_promise w = (Ok (Ok tt), w)) by (vm_compute; reflexivity).
  destruct (page_is_released_after_compress MemEngine.clock sample_file
              (new_Page "reencode") w w eq_refl Hinit) as (r & w' & H1 & H2 & _).
  exists r, w'. split; [exact H2 |]. rewrite H1. reflexivity.
Defined.

Lemma page_stays_busy_witness :
  let pg := new_Page "copy" in
  let w := new_World (page_cfg (MemEngine.create (Some (Error "load failed")) None None)
                        (fun f => Ok (file_data f))) in
  exists pg' w1,
    handleVideoFile_await MemEngine.clock (Some sample_file) pg w
    = (Settled (Throw (Error "load failed")), pg', w1) /\
    isProcessing pg' = true /\
    handleVideoFile_await MemEngine.clock (Some sample_file) pg' w1
    = (Settled (Ok tt), pg', w1).
Proof.
  intros pg w.
  assert (Hinit : exists w1, init_promise w = (Ok (Throw (Error "load failed")), w1))
    by (vm_compute; eexists; reflexivity).
  destruct Hinit as [w1 Hinit].
  destruct (page_stays_busy_after_failed_init MemEngine.clock sample_file pg w w1
              (Error "load failed") eq_refl Hinit) as (pg' & H1 & H2 & _ & H3).
  exists pg', w1. split; [exact H1 |]. split; [exact H2 | apply H3].
Defined.

(** The page on the in-memory engine: a re-encode of [sample.mp4] runs
    [exec] with the page's arguments and shows the blob under the page's
    download name. *)
Lemma page_reencodes_sample :
  let result := handleVideoFile_await MemEngine.clock (Some sample_file)
                  (new_Page "reencode")
                  (new_World (page_cfg (MemEngine.create None None None)
                                (fun f => Ok (file_data f)))) in
  fst (fst result) = Settled (Ok tt) /\
  isProcessing (snd (fst result)) = false /\
  status (snd (fst result)) = "Video ready to download or preview." /\
  shown (snd (fst result))
  = Some ({| blob_data := [Byte.x00]; blob_type := "video/mp4" |}, "sample-reencoded.mp4") /\
  List.filter is_exec_call (trace (snd result))
  = [CExec ["-i"; "input-1700000000000.mp4"; "-c:v"; "libx264"; "-crf"; "23";
            "-preset"; "medium"; "-c:a"; "aac"; "-b:a"; "128k";
            "-movflags"; "+faststart"; "-y"; "sample-reencoded.mp4"]] /\
  List.filter is_factory_call (trace (snd result))
  = [CFactory {| opt_log := true; opt_corePath := Some "/ffmpeg" |}].
Proof. vm_compute. repeat split; reflexivity. Qed.

Lemma guards_reject_witness :
  as_task (compress_call (AFile sample_file) (Some (options_of_mode EmptyString)))
    (new_World example_cfg)
  = (Settled (Throw (Error "Compression mode is required.")), new_World example_cfg).
Proof.
  exact (proj1 (proj2 (proj2 (guards_reject_without_effect (new_World example_cfg))))
           sample_file (options_of_mode EmptyString) eq_refl).
Defined.

(** An unsupported mode is the error of the call; and on an engine whose
    [exec] fails and whose files cannot be deleted, the awaited call
    rejects with the error of [exec]. *)
Lemma C7_witness :
  fst (as_task (compress_resume MemEngine.clock
                  (AwaitInit sample_file (options_of_mode "transcode") (Ok tt)))
         (new_World example_cfg))
  = Settled (Throw (Error "Unsupported compression mode: transcode")) /\
  fst (compress_await MemEngine.clock (AFile sample_file) (Some (options_of_mode "copy"))
         (new_World (MemEngine.cfg None (Some (Error "exec failed")) None)))
  = Settled (Throw (Error "exec failed")).
Proof.
  split.
  - exact (proj1 (proj2 (proj2 (proj2 (proj2 (C7_outcome_is_first_error_or_blob
                                                 MemEngine.clock)))))
             sample_file (options_of_mode "transcode")
             (Error "Unsupported compression mode: transcode")
             (new_World example_cfg) (fun i out => eq_refl)).
  - rewrite (proj1 (C7_outcome_is_first_error_or_blob MemEngine.clock)).
    vm_compute. reflexivity.
Defined.

(** A copy that supplies both [crf] and [bitrate], on a fresh instance:
    after the engine's creation the file is fetched and written, and
    [exec] is called with the copy arguments. *)
Lemma C9_witness :
  let w := new_World example_cfg in
  let result := compress_await MemEngine.clock (AFile sample_file)
                  (Some (conflicting_options "copy")) w in
  exists job rest,
    args job = ["-i"; inputName job; "-c:v"; "copy"; "-c:a"; "copy";
                "-movflags"; "+faststart"; "-y"; outputName job] /\
    trace (snd result)
    = [CFactory {| opt_log := true; opt_corePath := None |}; COn "log"; COn "progress"; CLoad]
      ++ [CFetch sample_file; CWriteFile (inputName job) [Byte.x00]; CExec (args job)]
      ++ rest.
Proof.
  intros w result.
  assert (Hi : exists w1 e,
             init_promise w = (Ok (Ok tt), w1) /\ ffmpeg (self w1) = Some e /\
             MemEngine.loaded e = true /\
             trace w1 = [CFactory {| opt_log := true; opt_corePath := None |};
                         COn "log"; COn "progress"; CLoad])
    by (vm_compute; eexists; eexists; repeat split; reflexivity).
  destruct Hi as (w1 & e & Hi & He & Hl & Htr).
  destruct (C9_copy_ignores_stream_options MemEngine.clock sample_file
              (conflicting_options "copy") w w1 e (or_introl eq_refl) eq_refl Hi He)
    as (_ & job & _ & _ & Hargs & _ & _ & Hrun).
  destruct (Hrun [Byte.x00] eq_refl) as [rest Hrest].
  { cbn [engine_writeFile MemEngine.engine]. unfold MemEngine.writeFile.
    rewrite Hl. reflexivity. }
  exists job, rest. split; [exact (Hargs eq_refl) |].
  unfold result. rewrite Hrest, Htr. reflexivity.
Defined.

Lemma job_is_named_witness :
  let w := world (example_run example_cfg [CallInit]) in
  exists job,
    fst (as_task (compress_resume MemEngine.clock
                    (AwaitInit sample_file (handleVideoFile_options "copy" "clip.mp4") (Ok tt)))
           w)
    = Suspended (AwaitFetch job (Ok [Byte.x00])) /\
    inputName job = "input-1700000000000.mp4" /\
    outputName job = "clip.mp4".
Proof.
  intros w.
  assert (He : exists e, ffmpeg (self w) = Some e) by (vm_compute; eexists; reflexivity).
  destruct He as [e He].
  destruct (job_is_named_from_clock MemEngine.clock sample_file
              (handleVideoFile_options "copy" "clip.mp4") w e He eq_refl
              (fun H => eq_refl))
    as (job & w' & Hr & Hin & Hout & _).
  exists job. rewrite Hr. split; [reflexivity |].
  split; [rewrite Hin | rewrite Hout]; vm_compute; reflexivity.
Defined.

(** [output: { container: undefined, mimeType: undefined }]: the spread
    of line 134 lets the two [undefined] values replace the defaults, so
    the output is named [output-<now>.undefined] and the blob has the empty
    type. *)
Lemma undefined_output_properties_replace_defaults :
  let options := {| mode := Some "copy"; video := None; audio := None;
                    output := Some {| container := Undefined; fileName := None;
                                      mimeType := Undefined |};
                    onProgress := None; onLog := None |} in
  let result := compress_await MemEngine.clock (AFile sample_file) (Some options)
                  (new_World example_cfg) in
  fst result = Settled (Ok {| blob_data := [Byte.x00]; blob_type := EmptyString |}) /\
  List.filter is_exec_call (trace (snd result))
  = [CExec ["-i"; "input-1700000000000.mp4"; "-c:v"; "copy"; "-c:a"; "copy";
            "-movflags"; "+faststart"; "-y"; "output-1700000000001.undefined"]].
Proof. vm_compute. split; reflexivity. Qed.

Lemma resolved_call_witness :
  let res := compress_await MemEngine.clock (AFile sample_file)
               (Some (options_of_mode "copy")) (new_World example_cfg) in
  fst res = Settled (Ok {| blob_data := [Byte.x00]; blob_type := "video/mp4" |}) /\
  exists job input cleaned,
    trace (snd res)
    = trace (new_World example_cfg)
      ++ [CFactory {| opt_log := true; opt_corePath := None |}; COn "log"; COn "progress";
          CLoad]
      ++ [CFetch sample_file; CWriteFile (inputName job) input; CExec (args job);
          CReadFile (outputName job)]
      ++ cleaned.
Proof.
  intros res.
  assert (Hfst : fst res = Settled (Ok {| blob_data := [Byte.x00]; blob_type := "video/mp4" |}))
    by (vm_compute; reflexivity).
  split; [exact Hfst |].
  assert (Hres : res = (Settled (Ok {| blob_data := [Byte.x00]; blob_type := "video/mp4" |}),
                        snd res)).
  { rewrite <- Hfst. apply surjective_pairing. }
  destruct (resolved_call_ran_one_job MemEngine.clock _ _ _ _ _ Hres)
    as (f & o & job & e & input & data & cleaned & Hf & _ & _ & _ & _ & _ & _ & _ & Ht & _).
  inversion Hf; subst f.
  exists job, input, cleaned. exact Ht.
Defined.

Lemma engine_is_loaded_witness :
  ffmpeg (self (world (run MemEngine.clock (new_System failing_load_cfg)
                         ([CallInit]
                          ++ [ResumeInit 0;
                              CallCompress (AFile sample_file) (Some (options_of_mode "copy"));
                              ResumeCompress 0])))) <> None.
Proof.
  refine (proj2 (proj2 (engine_is_loaded_at_most_once MemEngine.clock failing_load_cfg
                          [CallInit]
                          [ResumeInit 0;
                           CallCompress (AFile sample_file) (Some (options_of_mode "copy"));
                           ResumeCompress 0])) _).
  vm_compute. discriminate.
Defined.

Lemma callbacks_follow_witness :
  let w := world (example_run example_cfg [CallInit]) in
  let job := {| inputName := "in.mp4"; outputName := "out.mp4";
                args := ["-i"; "in.mp4"; "-y"; "out.mp4"]; job_mimeType := "video/mp4" |} in
  forwardProgress
    (self (snd (compress_resume MemEngine.clock
                  (AwaitInit sample_file (conflicting_options "copy") (Ok tt)) w))) 50%Z
  = Some (HandlerId 1, 50%Z) /\
  activeJobHooks (self (snd (compress_resume MemEngine.clock (AwaitExec job (Ok tt)) w)))
  = activeJobHooks (self w).
Proof.
  intros w job.
  destruct (callbacks_follow_latest_call MemEngine.clock (P := Z)) as [Hinstall Hkeep].
  split.
  - exact (proj1 (Hinstall sample_file (conflicting_options "copy") w 50%Z EmptyString)).
  - assert (He : exists e, ffmpeg (self w) = Some e) by (vm_compute; eexists; reflexivity).
    destruct He as [e He].
    pose proof (resume_exec_fulfilled MemEngine.clock job w e He) as Hr.
    rewrite Hr. cbn [snd].
    refine (Hkeep (AwaitExec job (Ok tt)) _ w _ Hr _). cbn. lia.
Defined.

Lemma no_callback_before_first_job_witness :
  let cfg := page_cfg (MemEngine.create None None None) (fun f => Ok (file_data f)) in
  config_onLog cfg = Some appendLog /\
  forwardLog (self (world (run MemEngine.clock (new_System cfg) [CallInit; ResumeInit 0])))
    "loading ffmpeg-core" = None.
Proof.
  intros cfg. split; [reflexivity |].
  exact (proj1 (no_callback_before_first_job MemEngine.clock (P := Z) cfg
                  [CallInit; ResumeInit 0] 0%Z "loading ffmpeg-core" eq_refl)).
Defined.
